(** * crest_analysis: RMSD classification and geometric measurements

    Shallow embedding of the two scripts of the repository,
    [rmsd_conformer_xyz.py] and [xyz2com_crest_pc.py], and the properties
    of their natural-language specification.

    - The RMSD script only uses [+], [-], [*], [/], [sqrt] and comparisons
      on Python/NumPy [float64] values, which IEEE 754 determines
      bit for bit: it is embedded over the Standard Library's [spec_float]
      at precision 53 (module [F64]).
    - The geometry functions of the conversion script go through
      [math.acos] and [round], for which no bit-exact specification
      exists: they are embedded over the real numbers, a value that the
      script would report as not-a-number being [None].
    - Files are read and written through an explicit [World]; an exception
      leaves the world as it was when it was raised. *)

From Stdlib Require Import ZArith List String Ascii Bool Lia Arith.
From Stdlib Require Import DecimalString.
From Stdlib Require Import SpecFloat.
From Stdlib Require Import Reals Lra Psatz.
From Stdlib Require Import Sorted.
From Equations Require Import Equations.
Import ListNotations.

Local Open Scope Z_scope.

(** ** Python exceptions and results *)

Module Py.

Inductive exn : Type :=
| ValueError
| IndexError
| ZeroDivisionError
| FileNotFoundError
| SystemExit.

Inductive result (A : Type) : Type :=
| Ok (a : A)
| Raise (e : exn).
Arguments Ok {A} a.
Arguments Raise {A} e.

Definition bind {A B} (r : result A) (k : A -> result B) : result B :=
  match r with
  | Ok a => k a
  | Raise e => Raise e
  end.

(** A list comprehension or a [for] loop that appends: the first
    exception aborts it. *)
Fixpoint mapM {A B} (f : A -> result B) (l : list A) : result (list B) :=
  match l with
  | [] => Ok []
  | a :: l' =>
      bind (f a) (fun b => bind (mapM f l') (fun bs => Ok (b :: bs)))
  end.

Definition of_option {A} (e : exn) (o : option A) : result A :=
  match o with
  | Some a => Ok a
  | None => Raise e
  end.

(** [l[i]] for a non-negative [i]. *)
Definition item {A} (l : list A) (i : nat) : result A :=
  of_option IndexError (nth_error l i).

(** [l[i]] for any integer [i]: a negative index counts from the end. *)
Definition index {A} (l : list A) (i : Z) : result A :=
  let n := Z.of_nat (List.length l) in
  if (0 <=? i) && (i <? n) then item l (Z.to_nat i)
  else if (- n <=? i) && (i <? 0) then item l (Z.to_nat (i + n))
  else Raise IndexError.

(** *** Strings (ASCII text) *)

(** The characters [str.strip()] and [str.split()] treat as white space. *)
Definition is_space (c : ascii) : bool :=
  let n := nat_of_ascii c in
  ((9 <=? n) && (n <=? 13) || (28 <=? n) && (n <=? 32))%nat.

Fixpoint lstrip (p : ascii -> bool) (s : string) : string :=
  match s with
  | EmptyString => EmptyString
  | String c s' => if p c then lstrip p s' else s
  end.

Fixpoint rstrip (p : ascii -> bool) (s : string) : string :=
  match s with
  | EmptyString => EmptyString
  | String c s' =>
      match rstrip p s' with
      | EmptyString => if p c then EmptyString else String c EmptyString
      | r => String c r
      end
  end.

(** [s.strip()] and [s.strip('\n')]. *)
Definition strip (s : string) : string := rstrip is_space (lstrip is_space s).

Definition newline : ascii := ascii_of_nat 10.

Definition nl : string := String newline EmptyString.

Definition strip_newlines (s : string) : string :=
  rstrip (Ascii.eqb newline) (lstrip (Ascii.eqb newline) s).

(** [s.split()]: the maximal runs of characters that are not white space. *)
Fixpoint split_from (s : string) (word : string) : list string :=
  match s with
  | EmptyString =>
      match word with
      | EmptyString => []
      | _ => [word]
      end
  | String c s' =>
      if is_space c then
        match word with
        | EmptyString => split_from s' EmptyString
        | _ => word :: split_from s' EmptyString
        end
      else split_from s' (word ++ String c EmptyString)
  end.

Definition split (s : string) : list string := split_from s EmptyString.

Definition digit_of (c : ascii) : option Z :=
  let n := nat_of_ascii c in
  if ((48 <=? n) && (n <=? 57))%nat then Some (Z.of_nat (n - 48)) else None.

(** Decimal digits, where single underscores may separate digits. *)
Fixpoint digits_value (s : string) (acc : Z) (after_digit : bool) : option Z :=
  match s with
  | EmptyString => if after_digit then Some acc else None
  | String c s' =>
      match digit_of c with
      | Some d => digits_value s' (10 * acc + d) true
      | None =>
          if Ascii.eqb c "_" && after_digit then digits_value s' acc false
          else None
      end
  end.

(** [int(s)] on a string: surrounding white space is dropped, one sign is
    allowed; anything else raises [ValueError]. *)
Definition parse_int (s : string) : option Z :=
  match strip s with
  | String "+" r => digits_value r 0 false
  | String "-" r => option_map Z.opp (digits_value r 0 false)
  | t => digits_value t 0 false
  end.

Definition int (s : string) : result Z := of_option ValueError (parse_int s).

(** [str(n)] for an integer. *)
Definition str (n : Z) : string := NilZero.string_of_int (Z.to_int n).

(** [sep.join(l)]. *)
Fixpoint join (sep : string) (l : list string) : string :=
  match l with
  | [] => EmptyString
  | [s] => s
  | s :: l' => (s ++ sep ++ join sep l')%string
  end.

(** [s.replace('_', ' ')]. *)
Fixpoint replace_underscores (s : string) : string :=
  match s with
  | EmptyString => EmptyString
  | String c s' =>
      String (if Ascii.eqb c "_" then " "%char else c) (replace_underscores s')
  end.

Definition is_upper (c : ascii) : bool :=
  let n := nat_of_ascii c in ((65 <=? n) && (n <=? 90))%nat.
Definition is_lower (c : ascii) : bool :=
  let n := nat_of_ascii c in ((97 <=? n) && (n <=? 122))%nat.
Definition to_upper (c : ascii) : ascii :=
  if is_lower c then ascii_of_nat (nat_of_ascii c - 32) else c.
Definition to_lower (c : ascii) : ascii :=
  if is_upper c then ascii_of_nat (nat_of_ascii c + 32) else c.

(** [s.title()]: a letter is upper-cased when it does not follow a letter,
    lower-cased when it does. *)
Fixpoint title_from (s : string) (after_letter : bool) : string :=
  match s with
  | EmptyString => EmptyString
  | String c s' =>
      if is_upper c || is_lower c then
        String (if after_letter then to_lower c else to_upper c)
               (title_from s' true)
      else String c (title_from s' false)
  end.

Definition title (s : string) : string := title_from s false.

End Py.

Import Py.

Notation "x <- c ;; k" := (Py.bind c (fun x => k))
  (at level 61, c at next level, right associativity).

(** ** The file system and the console *)

Module IO.

(** A file is the list of its lines when it is read with [readlines()],
    and the list of the strings written to it, in order, when it is
    written.  Paths are compared as they are spelled. *)
Record World : Type := mkWorld {
  files : list (string * list string);
  dirs : list string;
  stdout : list string;
  cwd : string
}.

(** A command: it returns or raises, and leaves a world behind in both
    cases. *)
Definition M (A : Type) : Type := World -> result A * World.

Definition ret {A} (a : A) : M A := fun w => (Ok a, w).

Definition raise {A} (e : exn) : M A := fun w => (Raise e, w).

Definition bindM {A B} (c : M A) (k : A -> M B) : M B :=
  fun w =>
    match c w with
    | (Ok a, w') => k a w'
    | (Raise e, w') => (Raise e, w')
    end.

Definition lift {A} (r : result A) : M A := fun w => (r, w).

Fixpoint lookup (fs : list (string * list string)) (p : string)
  : option (list string) :=
  match fs with
  | [] => None
  | (q, c) :: fs' => if String.eqb p q then Some c else lookup fs' p
  end.

Fixpoint update (fs : list (string * list string)) (p : string)
  (c : list string) : list (string * list string) :=
  match fs with
  | [] => [(p, c)]
  | (q, d) :: fs' =>
      if String.eqb p q then (q, c) :: fs' else (q, d) :: update fs' p c
  end.

Definition set_file (w : World) (p : string) (c : list string) : World :=
  mkWorld (update (files w) p c) (dirs w) (stdout w) (cwd w).

(** [os.path.isfile] and [os.path.exists]. *)
Definition isfile (w : World) (p : string) : bool :=
  match lookup (files w) p with
  | Some _ => true
  | None => false
  end.

Definition exists_ (w : World) (p : string) : bool :=
  isfile w p || existsb (String.eqb p) (dirs w).

(** [open(p, 'r')] followed by [readlines()]. *)
Definition readlines (p : string) : M (list string) :=
  fun w => (of_option FileNotFoundError (lookup (files w) p), w).

(** [open(p, 'w')] and [open(p, 'w+')]: the file is created or emptied. *)
Definition open_truncate (p : string) : M unit :=
  fun w => (Ok tt, set_file w p []).

(** [open(p, 'a')]: the file is created when it is missing. *)
Definition open_append (p : string) : M unit :=
  fun w =>
    match lookup (files w) p with
    | Some _ => (Ok tt, w)
    | None => (Ok tt, set_file w p [])
    end.

(** [f.write(s)] on the open file [p]. *)
Definition write (p : string) (s : string) : M unit :=
  fun w =>
    match lookup (files w) p with
    | Some c => (Ok tt, set_file w p (c ++ [s]))
    | None => (Ok tt, set_file w p [s])
    end.

Definition mkdir (p : string) : M unit :=
  fun w => (Ok tt, mkWorld (files w) (dirs w ++ [p]) (stdout w) (cwd w)).

Definition print (s : string) : M unit :=
  fun w => (Ok tt, mkWorld (files w) (dirs w) (stdout w ++ [s]) (cwd w)).

(** A [for] loop over a list, threading the world. *)
Fixpoint for_each {A} (l : list A) (body : A -> M unit) : M unit :=
  match l with
  | [] => ret tt
  | a :: l' => bindM (body a) (fun _ => for_each l' body)
  end.


End IO.

Import IO.

Notation "x <~ c ;; k" := (IO.bindM c (fun x => k))
  (at level 61, c at next level, right associativity).
Notation "c ;;; k" := (IO.bindM c (fun _ => k))
  (at level 61, right associativity).

(** ** IEEE 754 binary64, the type of Python's [float] and of [np.float64] *)

Module F64.

Definition float : Type := spec_float.

Definition prec : Z := 53.
Definition emax : Z := 1024.

Definition add : float -> float -> float := SFadd prec emax.
Definition sub : float -> float -> float := SFsub prec emax.
Definition mul : float -> float -> float := SFmul prec emax.
Definition div : float -> float -> float := SFdiv prec emax.
Definition sqrt : float -> float := SFsqrt prec emax.
Definition ltb : float -> float -> bool := SFltb.
Definition leb : float -> float -> bool := SFleb.
Definition eqb : float -> float -> bool := SFeqb.

(** The float nearest to [m * 2^e]; exact whenever [m] fits in 53 bits. *)
Definition of_dyadic (m e : Z) : float := binary_normalize prec emax m e false.

(** Conversion of a Python [int], as in [x / len(coords1)]. *)
Definition of_Z (z : Z) : float := of_dyadic z 0.

Definition zero : float := S754_zero false.
Definition nan : float := S754_nan.
Definition infinity : float := S754_infinity false.

(** The literals of the classifier. *)
Definition lit_0_5 : float := Eval vm_compute in of_dyadic 1 (-1).
Definition lit_1_0 : float := Eval vm_compute in of_Z 1.
Definition lit_2_0 : float := Eval vm_compute in of_Z 2.

Definition is_finite (x : float) : bool :=
  match x with
  | S754_zero _ | S754_finite _ _ _ => true
  | S754_infinity _ | S754_nan => false
  end.

Definition is_nan (x : float) : bool :=
  match x with
  | S754_nan => true
  | _ => false
  end.

End F64.

(** ** rmsd_conformer_xyz.py *)

Module Rmsd.

Import F64.

(** One row of an [(N, 3)] array. *)
Record vec3 : Type := V3 { vx : float; vy : float; vz : float }.

(** A conformer as [read_xyz] builds it: [np.array(coords)] with [coords]
    a list of [[x, y, z]] rows.  The empty list stands for [np.array([])],
    whose shape is [(0,)]. *)
Definition frame : Type := list vec3.

Definition vsub (p q : vec3) : vec3 :=
  V3 (sub (vx p) (vx q)) (sub (vy p) (vy q)) (sub (vz p) (vz q)).

Definition vec3_finite (p : vec3) : bool :=
  is_finite (vx p) && is_finite (vy p) && is_finite (vz p).

Definition origin : vec3 := V3 zero zero zero.

(** [coords - coords[0]]: indexing the empty array raises [IndexError];
    otherwise row 0 is broadcast against every row. *)
Definition adjust_relative_to_first_atom (coords : frame) : result frame :=
  match coords with
  | [] => Raise IndexError
  | p0 :: _ => Ok (map (fun p => vsub p p0) coords)
  end.

(** [coords1 - coords2] under NumPy's broadcasting rules for the shapes
    [read_xyz] produces: [(N, 3)] against [(M, 3)] is accepted when
    [N = M] or when one of them is 1 (that row is then repeated);
    [(0,)] is only compatible with [(0,)]. *)
Fixpoint zip_sub (a b : frame) : frame :=
  match a, b with
  | p :: a', q :: b' => vsub p q :: zip_sub a' b'
  | _, _ => []
  end.

Definition broadcast_sub (a b : frame) : result frame :=
  match a, b with
  | [], [] => Ok []
  | [], _ :: _ => Raise ValueError
  | _ :: _, [] => Raise ValueError
  | [p], _ => Ok (map (fun q => vsub p q) b)
  | _, [q] => Ok (map (fun p => vsub p q) a)
  | _, _ =>
      if Nat.eqb (List.length a) (List.length b)
      then Ok (zip_sub a b)
      else Raise ValueError
  end.

(** The entries of an array in C order. *)
Definition flatten (a : frame) : list float :=
  flat_map (fun p => [vx p; vy p; vz p]) a.

(** [diff ** 2]: NumPy squares by multiplying. *)
Definition square (x : float) : float := mul x x.

(** [np.sum]: the entries are added up from [0.0], in C order.  NumPy adds
    fewer than eight entries in exactly this order; it adds the entries
    of a longer array blockwise, in an order that depends on its version.
    The general properties below only involve sums of zeros, which every
    order maps to zero, and the examples have at most six entries. *)
Definition np_sum (l : list float) : float := fold_left add l zero.

Definition calculate_rmsd (coords1 coords2 : frame) : result float :=
  diff <- broadcast_sub coords1 coords2 ;;
  Ok (sqrt (div (np_sum (map square (flatten diff)))
                (of_Z (Z.of_nat (List.length coords1))))).

(** The four keys of [categories], in insertion order. *)
Inductive band : Type :=
| smaller_than_0_5
| from_0_5_to_1_0
| from_1_0_to_2_0
| above_2_0.

(** The [if]/[elif]/[else] chain of [write_rmsd_to_file]. *)
Definition classify (rmsd : float) : band :=
  if ltb rmsd lit_0_5 then smaller_than_0_5
  else if leb lit_0_5 rmsd && ltb rmsd lit_1_0 then from_0_5_to_1_0
  else if leb lit_1_0 rmsd && ltb rmsd lit_2_0 then from_1_0_to_2_0
  else above_2_0.

Definition band_eqb (a b : band) : bool :=
  match a, b with
  | smaller_than_0_5, smaller_than_0_5
  | from_0_5_to_1_0, from_0_5_to_1_0
  | from_1_0_to_2_0, from_1_0_to_2_0
  | above_2_0, above_2_0 => true
  | _, _ => false
  end.

(** The dictionary [categories]: one list of 1-based conformer numbers
    per key. *)
Definition categories : Type := band -> list Z.

Definition empty_categories : categories := fun _ => [].

Definition append_to (c : categories) (b : band) (n : Z) : categories :=
  fun b' => if band_eqb b b' then c b' ++ [n] else c b'.

(** [for i, rmsd in enumerate(rmsd_values)], started at index [i]. *)
Fixpoint categorize_from (i : Z) (rmsd_values : list float) (c : categories)
  : categories :=
  match rmsd_values with
  | [] => c
  | rmsd :: rest =>
      categorize_from (i + 1) rest (append_to c (classify rmsd) (i + 1))
  end.

Definition categorize (rmsd_values : list float) : categories :=
  categorize_from 0 rmsd_values empty_categories.

(** Steps 2 and 3 of [main]. *)
Definition rmsd_values_of (conformers : list frame) : result (list float) :=
  adjusted_conformers <- mapM adjust_relative_to_first_atom conformers ;;
  match adjusted_conformers with
  | [] => Raise IndexError
  | reference_conformer :: _ =>
      mapM (fun conformer => calculate_rmsd reference_conformer conformer)
           adjusted_conformers
  end.

(** *** Reading and writing *)

Section Files.

(** The two conversions between text and [float] that the script leaves
    to Python: [float(tok)], [None] when it raises [ValueError], and the
    format [f"{x:.4f}"]. *)
Variable py_float : string -> option float.
Variable format_4f : float -> string.

Definition float_of (tok : string) : result float :=
  of_option ValueError (py_float tok).

(** [parts = line.strip().split()] and
    [x, y, z = float(parts[1]), float(parts[2]), float(parts[3])]. *)
Definition parse_atom (line : string) : result vec3 :=
  let parts := split (strip line) in
  p1 <- item parts 1 ;;
  x <- float_of p1 ;;
  p2 <- item parts 2 ;;
  y <- float_of p2 ;;
  p3 <- item parts 3 ;;
  z <- float_of p3 ;;
  Ok (V3 x y z).

(** The [for _ in range(num_atoms)] loop of [read_xyz], at line [i]. *)
Fixpoint read_atoms (lines : list string) (num_atoms : nat) (i : nat)
  (coords : list vec3) : result (list vec3) :=
  match num_atoms with
  | O => Ok coords
  | S n =>
      line <- item lines i ;;
      p <- parse_atom line ;;
      read_atoms lines n (S i) (coords ++ [p])
  end.

(** The [while i < len(lines)] loop of [read_xyz].  When the inner loop
    ends without an exception, [i] has advanced by two header lines and
    by one line per atom. *)
Equations? read_xyz_from (lines : list string) (i : nat)
  (conformers : list frame) : result (list frame)
  by wf (List.length lines - i)%nat lt :=
  read_xyz_from lines i conformers with lt_dec i (List.length lines) => {
    | right _ := Ok conformers
    | left _ :=
        line <- item lines i ;;
        num_atoms <- int (strip line) ;;
        coords <- read_atoms lines (Z.to_nat num_atoms) (i + 2) [] ;;
        read_xyz_from lines (i + 2 + Z.to_nat num_atoms)
                      (conformers ++ [coords]) }.
Proof. lia. Qed.

Definition read_xyz (lines : list string) : result (list frame) :=
  read_xyz_from lines 0 [].

(** The key of a band in [categories]. *)
Definition band_key (b : band) : string :=
  match b with
  | smaller_than_0_5 => "smaller_than_0.5"
  | from_0_5_to_1_0 => "0.5_to_1.0"
  | from_1_0_to_2_0 => "1.0_to_2.0"
  | above_2_0 => "above_2.0"
  end.

(** [categories.items()] yields the keys in insertion order. *)
Definition bands : list band :=
  [smaller_than_0_5; from_0_5_to_1_0; from_1_0_to_2_0; above_2_0].

(** The two bytes of the letter A with a ring in UTF-8. *)
Definition angstrom : string :=
  String (ascii_of_nat 195) (String (ascii_of_nat 133) EmptyString).

Definition conformer_line (i : Z) (rmsd : float) : string :=
  ("Conformer " ++ str (i + 1) ++ ": RMSD = " ++ format_4f rmsd ++ " "
   ++ angstrom ++ nl)%string.

Definition category_line (c : categories) (b : band) : string :=
  (title (replace_underscores (band_key b)) ++ ": "
   ++ join ", " (map str (c b)) ++ nl)%string.

(** [enumerate(l)], started at [i]. *)
Fixpoint enumerate_from {A} (i : Z) (l : list A) : list (Z * A) :=
  match l with
  | [] => []
  | a :: l' => (i, a) :: enumerate_from (i + 1) l'
  end.

Definition write_rmsd_to_file (rmsd_values : list float) (output_file : string)
  : M unit :=
  let categories := categorize rmsd_values in
  open_truncate output_file ;;;
  write output_file ("RMSD Values and Classification:" ++ nl) ;;;
  for_each (enumerate_from 0 rmsd_values)
    (fun '(i, rmsd) => write output_file (conformer_line i rmsd)) ;;;
  write output_file (nl ++ "Classification:" ++ nl) ;;;
  for_each bands (fun b => write output_file (category_line categories b)).

Definition main (file_path output_file : string) : M unit :=
  lines <~ readlines file_path ;;
  conformers <~ lift (read_xyz lines) ;;
  rmsd_values <~ lift (rmsd_values_of conformers) ;;
  write_rmsd_to_file rmsd_values output_file ;;;
  print ("RMSD values and classifications written to " ++ output_file).



End Files.

(** The intervals of the specification's data model, written from its
    words: lower bound inclusive, upper bound exclusive, last band
    unbounded above. *)
Definition spec_band_contains (b : band) (x : float) : bool :=
  match b with
  | smaller_than_0_5 => leb zero x && ltb x lit_0_5
  | from_0_5_to_1_0 => leb lit_0_5 x && ltb x lit_1_0
  | from_1_0_to_2_0 => leb lit_1_0 x && ltb x lit_2_0
  | above_2_0 => leb lit_2_0 x
  end.

(** The specification's [recenter], written from its words: every
    position of the frame minus the position of atom index 0. *)
Definition spec_recenter (f : frame) : frame :=
  map (fun p => vsub p (hd origin f)) f.

(** *** Inputs used in the examples *)

(** [2^1023], the largest power of two among the floats. *)
Definition huge : float := Eval vm_compute in of_dyadic 1 1023.

(** Two atoms, at [x = 2^1023] and at [x = -2^1023]. *)
Definition overflowing_frame : frame :=
  [V3 huge zero zero; V3 (SFopp huge) zero zero].

(** Two frames of two atoms. *)
Definition two_atoms_a : frame :=
  [V3 lit_1_0 zero zero; V3 lit_2_0 zero zero].
Definition two_atoms_b : frame :=
  [V3 zero zero zero; V3 zero lit_2_0 zero].


End Rmsd.


(** ** xyz2com_crest_pc.py *)

Module Xyz2com.

(** *** The geometry functions, on positions *)

(** A one-dimensional array, as [np.array(line.split()[1:])] builds it. *)
Definition vec : Type := list R.

(** A Python [float] in the real-number model: [None] is not-a-number. *)
Definition value : Type := option R.

Section Geometry.

Local Open Scope R_scope.

Fixpoint zip_minus (a b : vec) : vec :=
  match a, b with
  | x :: a', y :: b' => (x - y) :: zip_minus a' b'
  | _, _ => []
  end.

(** [a - b] on one-dimensional arrays: the lengths agree, or the array of
    length one is repeated. *)
Definition minus (a b : vec) : result vec :=
  if Nat.eqb (List.length a) (List.length b) then Ok (zip_minus a b)
  else
    match a, b with
    | _, [y] => Ok (map (fun x => x - y) a)
    | [x], _ => Ok (map (fun y => x - y) b)
    | _, _ => Raise ValueError
    end.

(** [sum(v**2 for v in a)]. *)
Definition sum_squares (a : vec) : R :=
  fold_left (fun acc v => acc + v ^ 2) a 0.

(** [np.dot] on one-dimensional arrays of the same length. *)
Fixpoint dot_from (a b : vec) (acc : R) : result R :=
  match a, b with
  | [], [] => Ok acc
  | x :: a', y :: b' => dot_from a' b' (acc + x * y)
  | _, _ => Raise ValueError
  end.

Definition dot (a b : vec) : result R := dot_from a b 0.

(** [np.cross] on two arrays of three components.  (NumPy also accepts
    two components; lines of an xyz file carry three coordinates, and the
    model raises for every other length.) *)
Definition cross (a b : vec) : result vec :=
  match a, b with
  | [a1; a2; a3], [b1; b2; b3] =>
      Ok [a2 * b3 - a3 * b2; a3 * b1 - a1 * b3; a1 * b2 - a2 * b1]
  | _, _ => Raise ValueError
  end.

(** [round(x, 4)]: the multiple of [1/10000] nearest to [x], the even one
    when two are equally near. *)
Definition round_half_even (x : R) : Z :=
  let f := Int_part x in
  if Rlt_dec (x - IZR f) (1 / 2) then f
  else if Rlt_dec (1 / 2) (x - IZR f) then (f + 1)%Z
  else if Z.even f then f else (f + 1)%Z.

Definition round4 (x : R) : R := IZR (round_half_even (x * 10000)) / 10000.

(** [np.dot(u, v) / (a * b)] followed by [math.acos] and the conversion
    to degrees.  A zero denominator gives not-a-number when the numerator
    is zero too, and an infinity, which [math.acos] refuses, when it is
    not; [math.acos] also refuses arguments outside [[-1, 1]]. *)
Definition degrees_of_cos (numerator denominator : R) : result value :=
  if Req_dec_T denominator 0 then
    if Req_dec_T numerator 0 then Ok None else Raise ValueError
  else
    let c := numerator / denominator in
    if Rle_dec (-1) c then
      if Rle_dec c 1 then Ok (Some (acos c * 180 / PI))
      else Raise ValueError
    else Raise ValueError.

Definition round_value (v : value) : value := option_map round4 v.

Definition negate (v : value) : value := option_map Ropp v.

(** The loop of [calc_length]: [y[v]] raises [IndexError] when [y] is
    shorter than [x]. *)
Fixpoint sum_squared_differences (x y : vec) (sum_d : R) : result R :=
  match x with
  | [] => Ok sum_d
  | xv :: x' =>
      match y with
      | [] => Raise IndexError
      | yv :: y' => sum_squared_differences x' y' (sum_d + (xv - yv) ^ 2)
      end
  end.

(** [calc_length] after its two parsing lines. *)
Definition bond_length (x y : vec) : result value :=
  sum_d <- sum_squared_differences x y 0 ;;
  let distance := sqrt sum_d in
  Ok (Some (round4 distance)).


(** [calc_angle] after its three parsing lines. *)
Definition bond_angle (atomA atomB atomC : vec) : result value :=
  AB <- minus atomB atomA ;;
  BC <- minus atomB atomC ;;
  let length_AB := sqrt (sum_squares AB) in
  let length_BC := sqrt (sum_squares BC) in
  d <- dot AB BC ;;
  angle <- degrees_of_cos d (length_AB * length_BC) ;;
  Ok (round_value angle).

(** [calc_dihedral] after its four parsing lines. *)
Definition dihedral (atomA atomB atomC atomD : vec) : result value :=
  AB <- minus atomB atomA ;;
  BC <- minus atomC atomB ;;
  CD <- minus atomD atomC ;;
  n1 <- cross AB BC ;;
  n2 <- cross BC CD ;;
  let norm_n1 := sqrt (sum_squares n1) in
  let norm_n2 := sqrt (sum_squares n2) in
  d <- dot n1 n2 ;;
  angle <- degrees_of_cos d (norm_n1 * norm_n2) ;;
  n3 <- cross n1 n2 ;;
  s <- dot n3 BC ;;
  Ok (round_value (if Rlt_dec s 0 then negate angle else angle)).




End Geometry.

(** *** The driver *)

Section Driver.

Local Open Scope string_scope.

(** The two conversions between text and floating-point numbers that the
    script leaves to NumPy and Python: the [np.float32] a token denotes,
    [None] when the conversion raises [ValueError], and [str(x)]. *)
Variable np_float32 : string -> option R.
Variable str_float : value -> string.

(** [np.array(line.split()[1:], dtype=np.float32)]. *)
Definition np_array (line : string) : result vec :=
  mapM (fun tok => of_option ValueError (np_float32 tok)) (tl (split line)).

Definition calc_length (array : list string) (i j : Z) : result value :=
  li <- index array i ;;
  x <- np_array li ;;
  lj <- index array j ;;
  y <- np_array lj ;;
  bond_length x y.

Definition calc_angle (array : list string) (i j k : Z) : result value :=
  li <- index array i ;;
  atomA <- np_array li ;;
  lj <- index array j ;;
  atomB <- np_array lj ;;
  lk <- index array k ;;
  atomC <- np_array lk ;;
  bond_angle atomA atomB atomC.

Definition calc_dihedral (array : list string) (i j k m : Z) : result value :=
  li <- index array i ;;
  atomA <- np_array li ;;
  lj <- index array j ;;
  atomB <- np_array lj ;;
  lk <- index array k ;;
  atomC <- np_array lk ;;
  lm <- index array m ;;
  atomD <- np_array lm ;;
  dihedral atomA atomB atomC atomD.

(** The local variables of [main] that the command line sets. *)
Record settings : Type := mkSettings {
  bd_atm1 : Z; bd_atm2 : Z;
  angle_atm1 : Z; angle_atm2 : Z; angle_atm3 : Z;
  dihedral_atm1 : Z; dihedral_atm2 : Z; dihedral_atm3 : Z; dihedral_atm4 : Z;
  trsd : Z;
  core : string;
  mem : string;
  bool_chk : bool
}.

Definition initial_settings (num_conf : Z) : settings :=
  mkSettings 0 0 0 0 0 0 0 0 0 num_conf
             ("%nprocshared=24" ++ nl) ("%mem=48GB" ++ nl) false.

(** [int(sys.argv[k])]. *)
Definition int_arg (argv : list string) (k : nat) : result Z :=
  a <- item argv k ;; int a.

(** One round of [for k in range(length)]. *)
Definition read_flag (argv : list string) (k : nat) (s : settings)
  : result settings :=
  flag <- item argv k ;;
  if String.eqb flag "-l" then
    a1 <- int_arg argv (k + 1) ;;
    a2 <- int_arg argv (k + 2) ;;
    Ok (mkSettings (a1 + 1) (a2 + 1)
          (angle_atm1 s) (angle_atm2 s) (angle_atm3 s)
          (dihedral_atm1 s) (dihedral_atm2 s) (dihedral_atm3 s)
          (dihedral_atm4 s) (trsd s) (core s) (mem s) (bool_chk s))
  else if String.eqb flag "-a" then
    a1 <- int_arg argv (k + 1) ;;
    a2 <- int_arg argv (k + 2) ;;
    a3 <- int_arg argv (k + 3) ;;
    Ok (mkSettings (bd_atm1 s) (bd_atm2 s)
          (a1 + 1) (a2 + 1) (a3 + 1)
          (dihedral_atm1 s) (dihedral_atm2 s) (dihedral_atm3 s)
          (dihedral_atm4 s) (trsd s) (core s) (mem s) (bool_chk s))
  else if String.eqb flag "-d" then
    a1 <- int_arg argv (k + 1) ;;
    a2 <- int_arg argv (k + 2) ;;
    a3 <- int_arg argv (k + 3) ;;
    a4 <- int_arg argv (k + 4) ;;
    Ok (mkSettings (bd_atm1 s) (bd_atm2 s)
          (angle_atm1 s) (angle_atm2 s) (angle_atm3 s)
          (a1 + 1) (a2 + 1) (a3 + 1) (a4 + 1)
          (trsd s) (core s) (mem s) (bool_chk s))
  else if String.eqb flag "-n" then
    n <- int_arg argv (k + 1) ;;
    Ok (mkSettings (bd_atm1 s) (bd_atm2 s)
          (angle_atm1 s) (angle_atm2 s) (angle_atm3 s)
          (dihedral_atm1 s) (dihedral_atm2 s) (dihedral_atm3 s)
          (dihedral_atm4 s) n (core s) (mem s) (bool_chk s))
  else if String.eqb flag "-c" then
    c <- item argv (k + 1) ;;
    Ok (mkSettings (bd_atm1 s) (bd_atm2 s)
          (angle_atm1 s) (angle_atm2 s) (angle_atm3 s)
          (dihedral_atm1 s) (dihedral_atm2 s) (dihedral_atm3 s)
          (dihedral_atm4 s) (trsd s) ("%nprocshared=" ++ c ++ nl) (mem s)
          (bool_chk s))
  else if String.eqb flag "-m" then
    m <- item argv (k + 1) ;;
    Ok (mkSettings (bd_atm1 s) (bd_atm2 s)
          (angle_atm1 s) (angle_atm2 s) (angle_atm3 s)
          (dihedral_atm1 s) (dihedral_atm2 s) (dihedral_atm3 s)
          (dihedral_atm4 s) (trsd s) (core s) ("%mem=" ++ m ++ "GB" ++ nl)
          (bool_chk s))
  else if String.eqb flag "-chk" then
    Ok (mkSettings (bd_atm1 s) (bd_atm2 s)
          (angle_atm1 s) (angle_atm2 s) (angle_atm3 s)
          (dihedral_atm1 s) (dihedral_atm2 s) (dihedral_atm3 s)
          (dihedral_atm4 s) (trsd s) (core s) (mem s) true)
  else Ok s.

Fixpoint read_flags_from (argv : list string) (ks : list nat) (s : settings)
  : result settings :=
  match ks with
  | [] => Ok s
  | k :: ks' => s' <- read_flag argv k s ;; read_flags_from argv ks' s'
  end.

(** [if (length > 1): for k in range(length): ...]. *)
Definition read_flags (argv : list string) (s : settings) : result settings :=
  if (1 <? List.length argv)%nat
  then read_flags_from argv (seq 0 (List.length argv)) s
  else Ok s.

(** [os.path.join(a, b)] for a relative [b]. *)
Fixpoint ends_with_slash (a : string) : bool :=
  match a with
  | EmptyString => false
  | String c EmptyString => Ascii.eqb c "/"
  | String _ a' => ends_with_slash a'
  end.

Definition path_join (a b : string) : string :=
  match a with
  | EmptyString => b
  | _ => if ends_with_slash a then a ++ b else a ++ "/" ++ b
  end.

(** [range(n)]. *)
Definition range (n : Z) : list Z := map Z.of_nat (seq 0 (Z.to_nat n)).

(** [int(a / b)] on integers: the quotient truncated towards zero (the
    float quotient is exact enough for that below [2^53] lines). *)
Definition int_div (a b : Z) : result Z :=
  if (b =? 0)%Z then Raise ZeroDivisionError else Ok (Z.quot a b).

(** The keywords of the Gaussian input: [input.txt] in the working
    directory when it is a file, five default lines when it is not. *)
Definition default_inpMB : list string :=
  ["# opt freq b3lyp/def2svp em=gd3bj" ++ nl; nl; "Title" ++ nl; nl;
   "0 1" ++ nl].

Definition read_inpMB : M (list string) :=
  fun w =>
    let input_filepath := path_join (cwd w) "input.txt" in
    if isfile w input_filepath then readlines input_filepath w
    else (Ok default_inpMB, w).

(** The three lists [bd_length_asb], [angle_asb] and [dihedral_asb]. *)
Record series : Type := mkSeries {
  bd_length_asb : list value;
  angle_asb : list value;
  dihedral_asb : list value
}.

Definition tab : string := String (ascii_of_nat 9) EmptyString.

(** [with open(path, 'a') as f: f.write(str(i+1) + '\t');
    f.write(str(v)); f.write('\n')]. *)
Definition log_value (path : string) (i : Z) (v : value) : M unit :=
  open_append path ;;;
  write path (str (i + 1) ++ tab) ;;;
  write path (str_float v) ;;;
  write path nl.

Section Conformer.

Variable data : list string.
Variable folder_name : string.
Variable num_atom : Z.
Variable inpMB : list string.
Variable s : settings.

(** The three measurement blocks of the loop body, for conformer [i]. *)
Definition measure_length (i : Z) (acc : series) : M series :=
  if ((2 <=? bd_atm1 s) && (2 <=? bd_atm2 s))%Z then
    let path_bd_length := "./" ++ folder_name ++ "/bond_length.txt" in
    bd_length_new <~ lift (calc_length data
                             (bd_atm1 s + i * (num_atom + 2))
                             (bd_atm2 s + i * (num_atom + 2))) ;;
    log_value path_bd_length i bd_length_new ;;;
    ret (mkSeries (bd_length_asb acc ++ [bd_length_new]) (angle_asb acc)
                  (dihedral_asb acc))
  else ret acc.

Definition measure_angle (i : Z) (acc : series) : M series :=
  if ((2 <=? angle_atm1 s) && (2 <=? angle_atm2 s)
      && (2 <=? angle_atm3 s))%Z then
    let path_angle := "./" ++ folder_name ++ "/angle.txt" in
    angle_new <~ lift (calc_angle data
                         (angle_atm1 s + i * (num_atom + 2))
                         (angle_atm2 s + i * (num_atom + 2))
                         (angle_atm3 s + i * (num_atom + 2))) ;;
    log_value path_angle i angle_new ;;;
    ret (mkSeries (bd_length_asb acc) (angle_asb acc ++ [angle_new])
                  (dihedral_asb acc))
  else ret acc.

Definition measure_dihedral (i : Z) (acc : series) : M series :=
  if ((2 <=? dihedral_atm1 s) && (2 <=? dihedral_atm2 s)
      && (2 <=? dihedral_atm3 s) && (2 <=? dihedral_atm4 s))%Z then
    let path_dihedral := "./" ++ folder_name ++ "/dihedral.txt" in
    dihedral_new <~ lift (calc_dihedral data
                            (dihedral_atm1 s + i * (num_atom + 2))
                            (dihedral_atm2 s + i * (num_atom + 2))
                            (dihedral_atm3 s + i * (num_atom + 2))
                            (dihedral_atm4 s + i * (num_atom + 2))) ;;
    log_value path_dihedral i dihedral_new ;;;
    ret (mkSeries (bd_length_asb acc) (angle_asb acc)
                  (dihedral_asb acc ++ [dihedral_new]))
  else ret acc.

(** [for j in range(num_atom): f1.write(data[2+j+i*(num_atom+2)])]. *)
Definition write_atoms (path_save : string) (i : Z) : M unit :=
  for_each (range num_atom)
    (fun j =>
       line <~ lift (index data (2 + j + i * (num_atom + 2))) ;;
       write path_save line).

(** [for k in range(n): f1.write(inpMB[k + from])]. *)
Definition write_inpMB (path_save : string) (from n : nat) : M unit :=
  for_each (seq from n)
    (fun k => line <~ lift (item inpMB k) ;; write path_save line).

(** The part of the loop body that writes the Gaussian input file. *)
Definition write_com (i : Z) : M unit :=
  let path_save :=
    "./" ++ folder_name ++ "/crest_conformers_" ++ str (i + 1) ++ ".com" in
  open_truncate path_save ;;;
  write path_save (mem s) ;;;
  write path_save (core s) ;;;
  (if bool_chk s then
     fun w =>
       write path_save
         ("%chk=" ++ cwd w ++ "/" ++ folder_name ++ "/crest_conformers_"
          ++ str (i + 1) ++ ".chk" ++ nl) w
   else ret tt) ;;;
  (if (List.length inpMB <=? 5)%nat then
     write_inpMB path_save 0 (List.length inpMB) ;;;
     write_atoms path_save i ;;;
     write path_save nl
   else
     write_inpMB path_save 0 5 ;;;
     write_atoms path_save i ;;;
     write_inpMB path_save 5 (List.length inpMB - 5) ;;;
     write path_save nl).

Definition conformer (i : Z) (acc : series) : M series :=
  acc1 <~ measure_length i acc ;;
  acc2 <~ measure_angle i acc1 ;;
  acc3 <~ measure_dihedral i acc2 ;;
  write_com i ;;;
  ret acc3.

(** [for i in range(trsd)], over the indices [todo]. *)
Fixpoint conformers (todo : list Z) (acc : series) : M series :=
  match todo with
  | [] => ret acc
  | i :: todo' => acc' <~ conformer i acc ;; conformers todo' acc'
  end.

(** [plt.savefig(name)] creates the picture; its bytes are not modelled. *)
Definition savefig (name : string) : M unit := open_truncate name.

Definition plots (acc : series) : M unit :=
  (match bd_length_asb acc with
   | [] => ret tt
   | _ => savefig ("Bond_" ++ str (bd_atm1 s - 1) ++ "and"
                   ++ str (bd_atm2 s - 1) ++ ".png")
   end) ;;;
  (match angle_asb acc with
   | [] => ret tt
   | _ => savefig ("Angle_" ++ str (angle_atm1 s - 1) ++ "_"
                   ++ str (angle_atm2 s - 1) ++ "and"
                   ++ str (angle_atm3 s - 1) ++ ".png")
   end) ;;;
  (match dihedral_asb acc with
   | [] => ret tt
   | _ => savefig ("Dihedral_" ++ str (dihedral_atm1 s - 1) ++ "_"
                   ++ str (dihedral_atm2 s - 1) ++ "_"
                   ++ str (dihedral_atm3 s - 1) ++ "and"
                   ++ str (dihedral_atm4 s - 1) ++ ".png")
   end).

End Conformer.

(** The statements of [main] up to the check of the folder: nothing is
    written by them. *)
Definition prelude (argv : list string) (path : string)
  : M (list string * Z * list string * settings) :=
  data <~ readlines path ;;
  line0 <~ lift (item data 0) ;;
  let line_s := strip line0 in
  num_atom <~ lift (int (strip_newlines line_s)) ;;
  num_conf <~ lift (int_div (Z.of_nat (List.length data)) (num_atom + 2)) ;;
  inpMB <~ read_inpMB ;;
  s <~ lift (read_flags argv (initial_settings num_conf)) ;;
  ret (data, num_atom, inpMB, s).

(** [if not os.path.exists(folder_name): os.mkdir(folder_name)
    else: print(...); sys.exit()]. *)
Definition claim_folder (folder_name : string) : M unit :=
  fun w =>
    if negb (exists_ w folder_name) then mkdir folder_name w
    else (print ("Folder " ++ folder_name ++ " already exists.") ;;;
          raise SystemExit) w.

Definition empty_series : series := mkSeries [] [] [].


(** The world is left as it was, apart from what was printed. *)
Definition files_untouched (w w' : World) : Prop :=
  files w' = files w /\ dirs w' = dirs w.

(** [main(path, folder_name)], run with the command line [argv]; the
    series it has accumulated are returned for inspection. *)
Definition main (argv : list string) (path folder_name : string) : M series :=
  locals <~ prelude argv path ;;
  let '(data, num_atom, inpMB, s) := locals in
  claim_folder folder_name ;;;
  acc <~ conformers data folder_name num_atom inpMB s (range (trsd s))
           empty_series ;;
  plots s acc ;;;
  ret acc.

End Driver.

(** *** Inputs used in the examples *)

Section Examples.

Local Open Scope string_scope.

(** Two frames of one atom; the second frame's count line is not a
    number. *)
Definition two_frames : list string :=
  ["1" ++ nl; "first" ++ nl; "H 0 0 0" ++ nl;
   "x" ++ nl; "second" ++ nl; "H 0 0 1" ++ nl].

Definition world_with (path : string) (lines : list string) : World :=
  mkWorld [(path, lines)] [] [] "/home/user".


(** One frame of two atoms at distance [sqrt 2]. *)
Definition one_frame : list string :=
  ["2" ++ nl; "only" ++ nl; "H 0 0 0" ++ nl; "H 1 1 0" ++ nl].



(** A world in which the output folder exists already. *)
Definition occupied : World :=
  mkWorld [("./crest_conformers.xyz", two_frames)] ["crest_conformers"] []
          "/home/user".

(** Stand-ins for the conversions of tokens and floats, reading integer
    tokens only. *)
Definition integer_real (tok : string) : option R :=
  option_map IZR (parse_int tok).

Definition no_text (v : value) : string := "?".

End Examples.

End Xyz2com.


(** ** Notions used to state further properties *)

Module Notions.

(** A float that is NaN or not below zero. *)
Definition not_negative (x : F64.float) : bool :=
  F64.is_nan x || F64.leb F64.zero x.

(** The position of a band in the classifier's chain. *)
Definition band_rank (b : Rmsd.band) : nat :=
  match b with
  | Rmsd.smaller_than_0_5 => 0
  | Rmsd.from_0_5_to_1_0 => 1
  | Rmsd.from_1_0_to_2_0 => 2
  | Rmsd.above_2_0 => 3
  end.

(** [w'] differs from [w] at most in the content of the file [p] and in
    what was printed. *)
Definition differs_at_file (p : string) (w w' : World) : Prop :=
  dirs w' = dirs w
  /\ cwd w' = cwd w
  /\ forall q, q <> p -> lookup (files w') q = lookup (files w) q.

(** [w'] has the folders and the working directory of [w], and every
    file of [w] is still a file in [w']. *)
Definition only_adds_files (w w' : World) : Prop :=
  cwd w' = cwd w
  /\ dirs w' = dirs w
  /\ forall q, isfile w q = true -> isfile w' q = true.

(** A command that creates or rewrites files and does nothing else to
    the file system, whether it returns or raises. *)
Definition adds_files {A} (c : M A) : Prop :=
  forall w, only_adds_files w (snd (c w)).











End Notions.

(** * Properties *)

(** ** Facts about binary64 arithmetic *)

Module F64Facts.

Lemma shr_1_m (r : shr_record) :
  0 <= shr_m r -> shr_m (shr_1 r) = shr_m r / 2.
Proof.
  destruct r as [m r s]; cbn [shr_m]; intros Hm.
  rewrite <- Z.div2_div.
  destruct m as [| [p | p |] | p]; try reflexivity; lia.
Qed.

Lemma iter_shr_1_m (n : positive) :
  forall r, 0 <= shr_m r -> shr_m (SpecFloat.iter_pos shr_1 n r) = shr_m r / 2 ^ Zpos n.
Proof.
  induction n as [n IH | n IH |]; intros r Hr; cbn [SpecFloat.iter_pos].
  - assert (H1 : 0 <= shr_m (shr_1 r))
      by (rewrite shr_1_m by exact Hr; apply Z.div_pos; lia).
    assert (H2 : 0 <= shr_m (SpecFloat.iter_pos shr_1 n (shr_1 r)))
      by (rewrite IH by exact H1; apply Z.div_pos; lia).
    rewrite IH by exact H2. rewrite IH by exact H1. rewrite shr_1_m by exact Hr.
    rewrite !Z.div_div by lia. f_equal.
    rewrite Pos2Z.inj_xI, Z.pow_add_r, <- Z.pow_twice_r by lia. lia.
  - assert (H2 : 0 <= shr_m (SpecFloat.iter_pos shr_1 n r))
      by (rewrite IH by exact Hr; apply Z.div_pos; lia).
    rewrite IH by exact H2. rewrite IH by exact Hr.
    rewrite !Z.div_div by lia. f_equal.
    rewrite Pos2Z.inj_xO, <- Z.pow_twice_r. lia.
  - rewrite shr_1_m by exact Hr. reflexivity.
Qed.

(** A number of [d] binary digits is at least [2^(d-1)]. *)
Lemma digits2_lower (p : positive) : 2 ^ (Zpos (digits2_pos p) - 1) <= Zpos p.
Proof.
  induction p as [p IH | p IH |]; cbn [digits2_pos].
  - rewrite Pos2Z.inj_succ.
    replace (Z.succ (Zpos (digits2_pos p)) - 1)
      with (Z.succ (Zpos (digits2_pos p) - 1)) by lia.
    rewrite Z.pow_succ_r by lia. lia.
  - rewrite Pos2Z.inj_succ.
    replace (Z.succ (Zpos (digits2_pos p)) - 1)
      with (Z.succ (Zpos (digits2_pos p) - 1)) by lia.
    rewrite Z.pow_succ_r by lia. lia.
  - cbn. lia.
Qed.

(** Above the smallest exponent, the shift to the working precision keeps
    a positive mantissa positive. *)
Lemma shr_fexp_positive (m : positive) (e : Z) (l : location) :
  emin F64.prec F64.emax <= e ->
  0 < shr_m (fst (shr_fexp F64.prec F64.emax (Zpos m) e l))
  /\ emin F64.prec F64.emax <= snd (shr_fexp F64.prec F64.emax (Zpos m) e l).
Proof.
  intros He. unfold shr_fexp, shr.
  assert (Hm : shr_m (shr_record_of_loc (Zpos m) l) = Zpos m)
    by (destruct l as [| []]; reflexivity).
  pose proof (digits2_lower m) as Hd.
  cbn [Zdigits2].
  remember (fexp F64.prec F64.emax (Zpos (digits2_pos m) + e) - e) as n eqn:Hn.
  assert (Hn' : n <= Zpos (digits2_pos m) - 1).
  { subst n. unfold fexp, emin, F64.prec, F64.emax in *. lia. }
  destruct n as [| n | n]; cbn [fst snd]; rewrite ?Hm; try (split; lia).
  rewrite iter_shr_1_m by (rewrite Hm; lia). rewrite Hm. split; [| lia].
  apply Z.div_str_pos. split; [lia |].
  apply Z.le_trans with (2 ^ (Zpos (digits2_pos m) - 1)); [| exact Hd].
  apply Z.pow_le_mono_r; lia.
Qed.

Lemma round_nearest_even_positive (m : Z) (l : location) :
  0 < m -> 0 < round_nearest_even m l.
Proof.
  intros Hm. destruct l as [| []]; cbn; try lia. destruct (Z.even m); lia.
Qed.

Lemma binary_round_aux_positive (m : positive) (e : Z) (l : location) :
  emin F64.prec F64.emax <= e ->
  (exists m' e', binary_round_aux F64.prec F64.emax false (Zpos m) e l
                 = S754_finite false m' e')
  \/ binary_round_aux F64.prec F64.emax false (Zpos m) e l = S754_infinity false.
Proof.
  intros He. unfold binary_round_aux.
  destruct (shr_fexp_positive m e l He) as [H1 H2].
  destruct (shr_fexp F64.prec F64.emax (Zpos m) e l) as [mrs' e'].
  cbn [fst snd] in H1, H2.
  pose proof (round_nearest_even_positive (shr_m mrs') (loc_of_shr_record mrs') H1)
    as H3.
  destruct (round_nearest_even (shr_m mrs') (loc_of_shr_record mrs'))
    as [| m1 | m1]; try lia.
  destruct (shr_fexp_positive m1 e' loc_Exact H2) as [H4 H5].
  destruct (shr_fexp F64.prec F64.emax (Zpos m1) e' loc_Exact) as [mrs'' e''].
  cbn [fst snd] in H4, H5.
  destruct (shr_m mrs'') as [| m2 | m2]; try lia.
  destruct (e'' <=? F64.emax - F64.prec); [left; eauto | right; reflexivity].
Qed.

(** A positive integer converts to a positive float or to infinity, never
    to zero. *)
Lemma of_Z_positive (p : positive) :
  (exists m e, F64.of_Z (Zpos p) = S754_finite false m e)
  \/ F64.of_Z (Zpos p) = S754_infinity false.
Proof.
  unfold F64.of_Z, F64.of_dyadic, binary_normalize, binary_round.
  destruct (shl_align p 0 (fexp F64.prec F64.emax (Zpos (digits2_pos p) + 0)))
    as [mz ez] eqn:Hs.
  apply binary_round_aux_positive.
  unfold shl_align in Hs.
  destruct (fexp F64.prec F64.emax (Zpos (digits2_pos p) + 0) - 0) eqn:Hd;
    inversion Hs; subst; unfold fexp, emin, F64.prec, F64.emax in *; lia.
Qed.

Lemma div_zero_of_Z (p : positive) :
  F64.div F64.zero (F64.of_Z (Zpos p)) = F64.zero.
Proof.
  destruct (of_Z_positive p) as [(m & e & H) | H]; rewrite H; reflexivity.
Qed.

(** [x - x] is [+0.0] for every finite [x]. *)
Lemma sub_self (x : F64.float) :
  F64.is_finite x = true -> F64.sub x x = F64.zero.
Proof.
  destruct x as [s | s | | s m e]; cbn [F64.is_finite]; intros H;
    try discriminate H.
  - destruct s; reflexivity.
  - unfold F64.sub, SFsub. rewrite Z.min_id.
    rewrite Z.sub_diag. reflexivity.
Qed.

(** [x - x] is not a number when [x] is an infinity or not a number. *)
Lemma sub_self_not_finite (x : F64.float) :
  F64.is_finite x = false -> F64.sub x x = F64.nan.
Proof.
  destruct x as [s | s | | s m e]; cbn [F64.is_finite]; intros H;
    try discriminate H.
  - destruct s; reflexivity.
  - reflexivity.
Qed.

Lemma add_nan_l (x : F64.float) : F64.add F64.nan x = F64.nan.
Proof. reflexivity. Qed.

Lemma add_nan_r (x : F64.float) : F64.add x F64.nan = F64.nan.
Proof. destruct x; reflexivity. Qed.

Lemma is_nan_eq (x : F64.float) : F64.is_nan x = true -> x = F64.nan.
Proof. destruct x; cbn; intros H; try discriminate H. reflexivity. Qed.

Lemma compare_cont_flip (c m : positive) :
  PosDef.Pos.compare_cont Eq c m = CompOpp (PosDef.Pos.compare_cont Eq m c).
Proof. exact (Pos.compare_antisym m c). Qed.

End F64Facts.

(** ** rmsd_conformer_xyz.py *)

Module RmsdFacts.

Import Rmsd.
Import F64Facts.

Lemma mapM_Forall2 {A B} (f : A -> result B) (l : list A) (bs : list B) :
  mapM f l = Ok bs <-> Forall2 (fun a b => f a = Ok b) l bs.
Proof.
  revert bs. induction l as [| a l IH]; intros bs; cbn [mapM].
  - split; intros H.
    + inversion H. constructor.
    + inversion H. reflexivity.
  - split; intros H.
    + destruct (f a) as [b |] eqn:Hb; cbn [bind] in H; try discriminate H.
      destruct (mapM f l) as [bs' |] eqn:Hbs; cbn [bind] in H;
        try discriminate H.
      inversion H; subst. constructor; [exact Hb | apply IH; reflexivity].
    + inversion H as [| a' b l' bs' Hb Hrest]; subst.
      rewrite Hb. cbn [bind]. apply IH in Hrest. rewrite Hrest. reflexivity.
Qed.

Lemma Forall2_map_left {A B C} (g : A -> B) (P : B -> C -> Prop)
  (l : list A) (l' : list C) :
  Forall2 (fun a c => P (g a) c) l l' -> Forall2 P (map g l) l'.
Proof. induction 1; cbn [map]; constructor; assumption. Qed.

Lemma Forall2_nth_error_left {A B} (P : A -> B -> Prop) (l : list A)
  (l' : list B) :
  Forall2 P l l' ->
  forall i a, nth_error l i = Some a ->
              exists b, nth_error l' i = Some b /\ P a b.
Proof.
  induction 1 as [| x y l l' Hxy _ IH]; intros [| i] a Hi; cbn in Hi |- *;
    try discriminate Hi.
  - inversion Hi; subst. eauto.
  - apply IH. exact Hi.
Qed.

(** *** Recentering *)

Lemma vsub_self (p : vec3) : vec3_finite p = true -> vsub p p = origin.
Proof.
  unfold vec3_finite, vsub, origin. intros H.
  apply andb_prop in H as [H Hz]. apply andb_prop in H as [Hx Hy].
  rewrite !sub_self by assumption. reflexivity.
Qed.

Lemma vsub_self_not_finite (p : vec3) :
  vec3_finite p = false ->
  existsb F64.is_nan [vx (vsub p p); vy (vsub p p); vz (vsub p p)] = true.
Proof.
  unfold vec3_finite, vsub. cbn [vx vy vz existsb]. intros H.
  destruct (F64.is_finite (vx p)) eqn:Hx.
  - destruct (F64.is_finite (vy p)) eqn:Hy.
    + destruct (F64.is_finite (vz p)) eqn:Hz; [discriminate H |].
      rewrite (sub_self_not_finite _ Hz). cbn. now rewrite !orb_true_r.
    + rewrite (sub_self_not_finite _ Hy). cbn. now rewrite orb_true_r.
  - rewrite (sub_self_not_finite _ Hx). reflexivity.
Qed.

Lemma vsub_self_origin (p : vec3) : vsub p p = origin -> vec3_finite p = true.
Proof.
  intros H. destruct (vec3_finite p) eqn:Hfin; [reflexivity |].
  pose proof (vsub_self_not_finite p Hfin) as Hnan.
  rewrite H in Hnan. discriminate Hnan.
Qed.

Lemma adjust_nonempty (c : frame) :
  c <> [] -> adjust_relative_to_first_atom c = Ok (spec_recenter c).
Proof. destruct c as [| p c]; [congruence | reflexivity]. Qed.

Lemma spec_recenter_length (c : frame) :
  List.length (spec_recenter c) = List.length c.
Proof. apply length_map. Qed.

(** C9, as stated, fails on a frame whose first atom has an infinite
    coordinate (the token [inf] in the file): [inf - inf] is not a number,
    and the first position of the recentered frame is not the origin. *)
Lemma C9_counterexample :
  adjust_relative_to_first_atom [V3 F64.infinity F64.zero F64.zero]
  = Ok [V3 F64.nan F64.zero F64.zero]
  /\ V3 F64.nan F64.zero F64.zero <> origin
  /\ F64.eqb F64.nan F64.zero = false.
Proof. repeat split. discriminate. Qed.

(** C9, amended: for every frame with at least one atom, the recentered
    frame has as many positions, position [i] is [frame[i] - frame[0]]
    (coordinate by coordinate, in floating point) for every [i], and the
    first position is exactly [(0, 0, 0)] if, and only if, the coordinates
    of atom 0 are finite. *)
Theorem C9_recenter (p0 : vec3) (rest : frame) :
  exists frame',
    adjust_relative_to_first_atom (p0 :: rest) = Ok frame'
    /\ List.length frame' = List.length (p0 :: rest)
    /\ (forall i p, nth_error (p0 :: rest) i = Some p ->
                    nth_error frame' i = Some (vsub p p0))
    /\ (nth_error frame' 0 = Some origin <-> vec3_finite p0 = true).
Proof.
  eexists. split; [reflexivity |]. split; [| split].
  - apply length_map.
  - intros i p Hi. rewrite nth_error_map, Hi. reflexivity.
  - cbn [map nth_error]. split.
    + intros H. apply vsub_self_origin. congruence.
    + intros H. now rewrite vsub_self.
Qed.

Lemma C9_recenter_witness :
  vec3_finite (V3 F64.lit_1_0 F64.lit_2_0 F64.zero) = true
  /\ exists frame',
      adjust_relative_to_first_atom
        [V3 F64.lit_1_0 F64.lit_2_0 F64.zero;
         V3 F64.lit_2_0 F64.lit_2_0 F64.lit_0_5]
      = Ok frame'
      /\ nth_error frame' 0 = Some origin
      /\ nth_error frame' 1 = Some (V3 F64.lit_1_0 F64.zero F64.lit_0_5).
Proof.
  split; [reflexivity |].
  destruct (C9_recenter (V3 F64.lit_1_0 F64.lit_2_0 F64.zero)
              [V3 F64.lit_2_0 F64.lit_2_0 F64.lit_0_5])
    as (frame' & Hadj & _ & Hat & Hfirst).
  exists frame'. split; [exact Hadj |]. split.
  - apply Hfirst. reflexivity.
  - rewrite (Hat 1%nat _ eq_refl). reflexivity.
Defined.

(** *** The RMSD of two frames *)

Lemma zip_sub_self (a : frame) :
  forallb vec3_finite a = true -> zip_sub a a = repeat origin (List.length a).
Proof.
  induction a as [| p a IH]; cbn [zip_sub forallb List.length repeat]; intros H.
  - reflexivity.
  - apply andb_prop in H as [Hp Ha].
    rewrite vsub_self, IH by assumption. reflexivity.
Qed.

Lemma broadcast_sub_self (a : frame) :
  forallb vec3_finite a = true ->
  broadcast_sub a a = Ok (repeat origin (List.length a)).
Proof.
  intros H. destruct a as [| p [| q a]].
  - reflexivity.
  - cbn in *. rewrite andb_true_r in H. rewrite vsub_self by exact H.
    reflexivity.
  - unfold broadcast_sub. rewrite Nat.eqb_refl.
    rewrite zip_sub_self by exact H. reflexivity.
Qed.

Lemma np_sum_zeros (n : nat) : np_sum (repeat F64.zero n) = F64.zero.
Proof.
  unfold np_sum.
  induction n as [| n IH]; cbn [repeat fold_left]; [reflexivity | exact IH].
Qed.

Lemma squares_of_origins (n : nat) :
  map square (flatten (repeat origin n)) = repeat F64.zero (3 * n).
Proof.
  induction n as [| n IH]; [reflexivity |].
  replace (3 * S n)%nat with (S (S (S (3 * n)))) by lia.
  cbn [repeat flatten flat_map app map]. unfold flatten in IH. rewrite IH.
  reflexivity.
Qed.

(** A frame of finite positions is at distance [+0.0] from itself. *)
Lemma calculate_rmsd_self (a : frame) :
  a <> [] -> forallb vec3_finite a = true -> calculate_rmsd a a = Ok F64.zero.
Proof.
  intros Hne Hfin. unfold calculate_rmsd.
  rewrite broadcast_sub_self by exact Hfin. cbn [bind].
  rewrite squares_of_origins, np_sum_zeros.
  destruct a as [| p a]; [congruence |].
  cbn [List.length]. rewrite Nat2Z.inj_succ, <- Zpos_P_of_succ_nat.
  rewrite div_zero_of_Z. reflexivity.
Qed.

Lemma broadcast_sub_diag (a : frame) : broadcast_sub a a = Ok (zip_sub a a).
Proof.
  destruct a as [| p [| q a]]; try reflexivity.
  unfold broadcast_sub. now rewrite Nat.eqb_refl.
Qed.

Lemma zip_sub_self_nan (a : frame) :
  forallb vec3_finite a = false ->
  existsb F64.is_nan (flatten (zip_sub a a)) = true.
Proof.
  induction a as [| p a IH]; cbn [forallb zip_sub]; intros H;
    [discriminate H |].
  unfold flatten. cbn [flat_map]. rewrite existsb_app.
  destruct (vec3_finite p) eqn:Hp.
  - cbn [andb] in H. unfold flatten in IH. rewrite (IH H). apply orb_true_r.
  - rewrite (vsub_self_not_finite p Hp). reflexivity.
Qed.

Lemma squares_keep_nan (l : list F64.float) :
  existsb F64.is_nan l = true -> existsb F64.is_nan (map square l) = true.
Proof.
  induction l as [| x l IH]; cbn [existsb map]; intros H; [discriminate H |].
  apply orb_prop in H as [H | H].
  - rewrite (is_nan_eq x H). reflexivity.
  - rewrite (IH H). apply orb_true_r.
Qed.

Lemma fold_add_nan (l : list F64.float) : fold_left F64.add l F64.nan = F64.nan.
Proof. induction l as [| x l IH]; cbn [fold_left]; [reflexivity | exact IH]. Qed.

Lemma np_sum_nan (l : list F64.float) :
  existsb F64.is_nan l = true -> np_sum l = F64.nan.
Proof.
  unfold np_sum. generalize F64.zero as acc.
  induction l as [| x l IH]; cbn [existsb fold_left]; intros acc H;
    [discriminate H |].
  apply orb_prop in H as [H | H].
  - rewrite (is_nan_eq x H), add_nan_r. apply fold_add_nan.
  - apply IH. exact H.
Qed.

(** A frame with a position that is not finite is at no distance from
    itself. *)
Lemma calculate_rmsd_self_nan (a : frame) :
  forallb vec3_finite a = false -> calculate_rmsd a a = Ok F64.nan.
Proof.
  intros Hfin. unfold calculate_rmsd. rewrite broadcast_sub_diag. cbn [bind].
  rewrite (np_sum_nan _ (squares_keep_nan _ (zip_sub_self_nan a Hfin))).
  reflexivity.
Qed.

Lemma broadcast_sub_defined (a b : frame) :
  List.length a = List.length b -> exists d, broadcast_sub a b = Ok d.
Proof.
  intros H. unfold broadcast_sub.
  destruct a as [| p [| p' a]], b as [| q [| q' b]]; try discriminate H; eauto.
  rewrite H, Nat.eqb_refl. eauto.
Qed.




(** *** The pipeline *)

Lemma recenter_all (l : list frame) :
  Forall (fun c => c <> []) l ->
  mapM adjust_relative_to_first_atom l = Ok (map spec_recenter l).
Proof.
  induction 1 as [| c l Hc _ IH]; cbn [mapM map]; [reflexivity |].
  rewrite (adjust_nonempty c Hc), IH. reflexivity.
Qed.

Lemma rmsd_against_reference (ref : frame) (l : list frame) :
  Forall (fun c => List.length c = List.length ref) l ->
  exists values,
    Forall2 (fun c v => calculate_rmsd ref c = Ok v) l values.
Proof.
  induction 1 as [| c l Hc _ IH].
  - exists []. constructor.
  - destruct IH as [vs IH].
    destruct (broadcast_sub_defined ref c) as [d Hd]; [congruence |].
    eexists (_ :: vs). constructor; [| exact IH].
    unfold calculate_rmsd. rewrite Hd. reflexivity.
Qed.

(** C1, as stated, fails on a one-frame ensemble with finite coordinates:
    recentering the atom at [-2^1023] on the atom at [2^1023] overflows
    to minus infinity, and the distance of the recentered frame to itself
    is not a number. *)
Lemma C1_counterexample :
  forallb vec3_finite overflowing_frame = true
  /\ rmsd_values_of [overflowing_frame] = Ok [F64.nan]
  /\ F64.eqb F64.nan F64.zero = false.
Proof. vm_compute. repeat split. Qed.

(** C1, amended: on an ensemble of frames with the same, non-zero number
    of atoms, the pipeline returns, in ensemble order, the RMSD of the
    recentered first frame against each recentered frame; the value is
    exactly [+0.0] for [i = 0], and for every frame whose recentered
    positions equal those of the first, provided the recentered positions
    are all finite, and it is not a number when they are not. *)
Theorem C1_rmsd_pipeline (c0 : frame) (cs : list frame)
  (Hne : c0 <> [])
  (Hshape : Forall (fun c => List.length c = List.length c0) cs) :
  exists values,
    rmsd_values_of (c0 :: cs) = Ok values
    /\ Forall2 (fun c v =>
                  calculate_rmsd (spec_recenter c0) (spec_recenter c) = Ok v)
               (c0 :: cs) values
    /\ (forall i c, nth_error (c0 :: cs) i = Some c ->
        spec_recenter c = spec_recenter c0 ->
        nth_error values i
        = Some (if forallb vec3_finite (spec_recenter c)
                then F64.zero else F64.nan))
    /\ nth_error values 0
       = Some (if forallb vec3_finite (spec_recenter c0)
               then F64.zero else F64.nan).
Proof.
  assert (Hall : Forall (fun c => List.length c = List.length c0) (c0 :: cs))
    by (constructor; [reflexivity | exact Hshape]).
  assert (Hnonempty : Forall (fun c => c <> []) (c0 :: cs)).
  { eapply Forall_impl; [| exact Hall].
    intros c Hc ->. destruct c0; [congruence | discriminate Hc]. }
  assert (Hlen : Forall (fun a => List.length a
                                  = List.length (spec_recenter c0))
                        (map spec_recenter (c0 :: cs))).
  { apply Forall_map. eapply Forall_impl; [| exact Hall].
    intros c Hc. now rewrite !spec_recenter_length. }
  destruct (rmsd_against_reference _ _ Hlen) as [values Hvalues].
  assert (Hself : forall i c, nth_error (c0 :: cs) i = Some c ->
            spec_recenter c = spec_recenter c0 ->
            nth_error values i
            = Some (if forallb vec3_finite (spec_recenter c)
                    then F64.zero else F64.nan)).
  { intros i c Hi Heq.
    assert (Hi' : nth_error (map spec_recenter (c0 :: cs)) i
                  = Some (spec_recenter c))
      by (rewrite nth_error_map, Hi; reflexivity).
    destruct (Forall2_nth_error_left _ _ _ Hvalues i _ Hi') as (v & Hv & Hrmsd).
    rewrite Heq in Hrmsd |- *.
    destruct (forallb vec3_finite (spec_recenter c0)) eqn:Hfin.
    - rewrite calculate_rmsd_self in Hrmsd; [| | exact Hfin].
      + inversion Hrmsd; subst. exact Hv.
      + intros E. apply (f_equal (@List.length vec3)) in E.
        rewrite spec_recenter_length in E.
        destruct c0; [congruence | discriminate E].
    - rewrite (calculate_rmsd_self_nan _ Hfin) in Hrmsd.
      inversion Hrmsd; subst. exact Hv. }
  exists values. split; [| split; [| split]].
  - unfold rmsd_values_of. rewrite (recenter_all _ Hnonempty). cbn [bind map].
    apply mapM_Forall2. exact Hvalues.
  - clear -Hvalues. remember (c0 :: cs) as l eqn:El. clear El.
    remember (map spec_recenter l) as m eqn:Em.
    revert l Em. induction Hvalues as [| a v m vs Hav _ IH]; intros l Em.
    + destruct l; [constructor | discriminate Em].
    + destruct l as [| c l]; [discriminate Em |]. cbn [map] in Em.
      inversion Em; subst. constructor; [exact Hav | apply IH; reflexivity].
  - exact Hself.
  - apply (Hself 0%nat c0); reflexivity.
Qed.

Lemma C1_rmsd_pipeline_witness :
  two_atoms_a <> []
  /\ Forall (fun c => List.length c = List.length two_atoms_a) [two_atoms_b]
  /\ exists values,
    rmsd_values_of [two_atoms_a; two_atoms_b] = Ok values
    /\ Forall2 (fun c v =>
                  calculate_rmsd (spec_recenter two_atoms_a) (spec_recenter c)
                  = Ok v)
               [two_atoms_a; two_atoms_b] values
    /\ nth_error values 0 = Some F64.zero.
Proof.
  assert (H1 : two_atoms_a <> []) by (unfold two_atoms_a; discriminate).
  assert (H2 : Forall (fun c => List.length c = List.length two_atoms_a)
                      [two_atoms_b])
    by (repeat constructor).
  split; [exact H1 |]. split; [exact H2 |].
  destruct (C1_rmsd_pipeline two_atoms_a [two_atoms_b] H1 H2)
    as (values & Hrun & Hall & _ & Hfirst).
  exists values. split; [exact Hrun |]. split; [exact Hall |]. exact Hfirst.
Defined.

(** *** The classifier *)

Ltac band_cases :=
  let b := fresh "b" in
  let Hb := fresh "Hb" in
  intros b; destruct b; cbn; split; intros Hb;
  solve [reflexivity | discriminate Hb].

(** For a non-negative value, the band of the specification that contains
    it is the band the [if]/[elif] chain chooses, and no other. *)
Lemma classify_partition (x : F64.float) :
  F64.leb F64.zero x = true ->
  forall b, spec_band_contains b x = true <-> classify x = b.
Proof.
  intros Hx. unfold classify, spec_band_contains.
  unfold F64.lit_0_5, F64.lit_1_0, F64.lit_2_0.
  unfold F64.ltb, F64.leb, SFltb, SFleb, F64.zero in *.
  generalize 4503599627370496%positive as c; intros c.
  destruct x as [s | s | | s m e]; try destruct s; cbn [SFcompare] in *.
  all: try (exfalso; clear -Hx; discriminate Hx).
  1-3: band_cases.
  clear Hx.
  rewrite (compare_cont_flip c m).
  rewrite (Z.compare_antisym e (-53)), (Z.compare_antisym e (-52)),
    (Z.compare_antisym e (-51)).
  destruct (Z.compare_spec e (-53)); destruct (Z.compare_spec e (-52));
    destruct (Z.compare_spec e (-51)); try (exfalso; lia); cbn [CompOpp];
    destruct (PosDef.Pos.compare_cont Eq m c); cbn [CompOpp]; band_cases.
Qed.

(** C2: every non-negative value lies in exactly one of the four bands
    [[0, 0.5)], [[0.5, 1.0)], [[1.0, 2.0)], [[2.0, oo)], the one the
    classifier assigns it to; the boundary value 0.5 is assigned to
    [0.5_to_1.0] and not to [smaller_than_0.5]. *)
Theorem C2_bands_partition (x : F64.float) (Hx : F64.leb F64.zero x = true) :
  (forall b, spec_band_contains b x = true <-> classify x = b)
  /\ classify F64.lit_0_5 = from_0_5_to_1_0
  /\ classify F64.lit_0_5 <> smaller_than_0_5.
Proof.
  split; [exact (classify_partition x Hx) |].
  split; [reflexivity | discriminate].
Qed.

Lemma C2_bands_partition_witness :
  F64.leb F64.zero F64.lit_0_5 = true
  /\ (forall b, spec_band_contains b F64.lit_0_5 = true
                <-> classify F64.lit_0_5 = b)
  /\ classify F64.lit_0_5 = from_0_5_to_1_0
  /\ classify F64.lit_0_5 <> smaller_than_0_5.
Proof.
  split; [reflexivity |].
  apply (C2_bands_partition F64.lit_0_5). reflexivity.
Defined.

Lemma categorize_from_spec (rmsd_values : list F64.float) :
  forall (i : Z) (c : categories) (b : band),
    categorize_from i rmsd_values c b
    = c b ++ map fst (filter (fun nx => band_eqb (classify (snd nx)) b)
                             (enumerate_from (i + 1) rmsd_values)).
Proof.
  induction rmsd_values as [| x l IH]; intros i c b;
    cbn [categorize_from enumerate_from filter map snd].
  - now rewrite app_nil_r.
  - rewrite IH. unfold append_to.
    destruct (band_eqb (classify x) b); cbn [map fst].
    + now rewrite <- app_assoc.
    + reflexivity.
Qed.

Lemma count_bands (n : Z) (E : list (Z * F64.float)) :
  count_occ Z.eq_dec
    (List.concat
       (map (fun b =>
               map fst (filter (fun nx => band_eqb (classify (snd nx)) b) E))
            bands)) n
  = count_occ Z.eq_dec (map fst E) n.
Proof.
  unfold bands. cbn [map List.concat]. rewrite app_nil_r, !count_occ_app.
  induction E as [| [m x] E IH]; [reflexivity |].
  cbn [filter snd map fst].
  destruct (classify x); cbn [band_eqb map fst count_occ];
    destruct (Z.eq_dec m n); lia.
Qed.

Lemma count_enumerate (n : Z) (l : list F64.float) :
  forall s,
    count_occ Z.eq_dec (map fst (enumerate_from s l)) n
    = if (s <=? n) && (n <? s + Z.of_nat (List.length l))
      then 1%nat else 0%nat.
Proof.
  induction l as [| x l IH]; intros s;
    cbn [enumerate_from map fst count_occ List.length].
  - destruct (Z.leb_spec s n), (Z.ltb_spec n (s + Z.of_nat 0)); cbn;
      try reflexivity; lia.
  - rewrite IH. rewrite Nat2Z.inj_succ.
    destruct (Z.eq_dec s n);
      destruct (Z.leb_spec (s + 1) n),
        (Z.ltb_spec n (s + 1 + Z.of_nat (List.length l))),
        (Z.leb_spec s n),
        (Z.ltb_spec n (s + Z.succ (Z.of_nat (List.length l))));
      cbn; try reflexivity; lia.
Qed.

(** C10: for every list of values, whatever the values are, the list of
    a band holds the numbers of the conformers the [if]/[elif] chain sends
    to it, in order, so that every conformer number occurs exactly once
    over the four lists; a value goes to [above_2.0] exactly when none of
    the three guarded comparisons holds, as is the case for not-a-number;
    a negative value goes to [smaller_than_0.5]. *)
Theorem C10_every_value_classified :
  (forall (rmsd_values : list F64.float) (b : band),
      categorize rmsd_values b
      = map fst (filter (fun nx => band_eqb (classify (snd nx)) b)
                        (enumerate_from 1 rmsd_values)))
  /\ (forall (rmsd_values : list F64.float) (n : Z),
         count_occ Z.eq_dec
           (List.concat (map (categorize rmsd_values) bands)) n
         = if (1 <=? n) && (n <=? Z.of_nat (List.length rmsd_values))
           then 1%nat else 0%nat)
  /\ (forall x : F64.float,
         band_eqb (classify x) above_2_0
         = negb (F64.ltb x F64.lit_0_5)
           && negb (F64.leb F64.lit_0_5 x && F64.ltb x F64.lit_1_0)
           && negb (F64.leb F64.lit_1_0 x && F64.ltb x F64.lit_2_0))
  /\ classify F64.nan = above_2_0
  /\ (forall x : F64.float,
         implb (F64.ltb x F64.zero)
               (band_eqb (classify x) smaller_than_0_5) = true).
Proof.
  assert (Hspec : forall (rmsd_values : list F64.float) (b : band),
      categorize rmsd_values b
      = map fst (filter (fun nx => band_eqb (classify (snd nx)) b)
                        (enumerate_from 1 rmsd_values))).
  { intros l b. unfold categorize. rewrite categorize_from_spec. reflexivity. }
  split; [exact Hspec |]. split; [| split; [| split]].
  - intros l n.
    rewrite (map_ext _ _ (Hspec l)), count_bands, count_enumerate.
    destruct (Z.leb_spec 1 n), (Z.ltb_spec n (1 + Z.of_nat (List.length l))),
      (Z.leb_spec n (Z.of_nat (List.length l))); cbn; try reflexivity; lia.
  - intros x. unfold classify.
    destruct (F64.ltb x F64.lit_0_5); [reflexivity |].
    destruct (F64.leb F64.lit_0_5 x && F64.ltb x F64.lit_1_0); [reflexivity |].
    destruct (F64.leb F64.lit_1_0 x && F64.ltb x F64.lit_2_0); reflexivity.
  - reflexivity.
  - intros x. unfold classify, F64.ltb, SFltb, F64.zero, F64.lit_0_5.
    destruct x as [s | s | | s m e]; try destruct s; reflexivity.
Qed.

(** *** Reading the ensemble *)


Section ReadFacts.

Variable py_float : string -> option F64.float.




Variable format_4f : F64.float -> string.



End ReadFacts.

End RmsdFacts.

(** ** xyz2com_crest_pc.py *)

Module Xyz2comFacts.

Import Xyz2com.

(** *** The geometry functions *)


Section GeometryFacts.

Local Open Scope R_scope.










(** The cosine of the angle of two non-zero vectors lies in [[-1, 1]]
    (Cauchy-Schwarz), so that [math.acos] accepts it. *)
Lemma degrees_of_cos_defined (u1 u2 u3 v1 v2 v3 : R) :
  0 + u1 ^ 2 + u2 ^ 2 + u3 ^ 2 <> 0 ->
  0 + v1 ^ 2 + v2 ^ 2 + v3 ^ 2 <> 0 ->
  exists t,
    degrees_of_cos (0 + u1 * v1 + u2 * v2 + u3 * v3)
                   (sqrt (0 + u1 ^ 2 + u2 ^ 2 + u3 ^ 2)
                    * sqrt (0 + v1 ^ 2 + v2 ^ 2 + v3 ^ 2))
    = Ok (Some t)
    /\ 0 <= t <= 180.
Proof.
  intros Hu Hv.
  set (su := 0 + u1 ^ 2 + u2 ^ 2 + u3 ^ 2) in *.
  set (sv := 0 + v1 ^ 2 + v2 ^ 2 + v3 ^ 2) in *.
  set (d := 0 + u1 * v1 + u2 * v2 + u3 * v3).
  assert (Hsu : 0 < su) by (unfold su in *; nra).
  assert (Hsv : 0 < sv) by (unfold sv in *; nra).
  assert (Hlu : 0 < sqrt su) by (apply sqrt_lt_R0; exact Hsu).
  assert (Hlv : 0 < sqrt sv) by (apply sqrt_lt_R0; exact Hsv).
  assert (Hlu2 : sqrt su * sqrt su = su) by (apply sqrt_sqrt; lra).
  assert (Hlv2 : sqrt sv * sqrt sv = sv) by (apply sqrt_sqrt; lra).
  assert (Hcs : d * d <= su * sv).
  { unfold d, su, sv.
    pose proof (pow2_ge_0 (u1 * v2 - u2 * v1)).
    pose proof (pow2_ge_0 (u1 * v3 - u3 * v1)).
    pose proof (pow2_ge_0 (u2 * v3 - u3 * v2)).
    nra. }
  set (L := sqrt su * sqrt sv) in *.
  assert (HL : 0 < L) by (unfold L; nra).
  assert (HL2 : L * L = su * sv) by (unfold L; nra).
  assert (Hd : - L <= d <= L) by nra.
  unfold degrees_of_cos.
  destruct (Req_dec_T L 0) as [E | _]; [lra |].
  assert (Hc : -1 <= d / L <= 1).
  { split.
    - apply Rmult_le_reg_r with L; [exact HL |].
      unfold Rdiv. rewrite Rmult_assoc, Rinv_l by lra. lra.
    - apply Rmult_le_reg_r with L; [exact HL |].
      unfold Rdiv. rewrite Rmult_assoc, Rinv_l by lra. lra. }
  destruct (Rle_dec (-1) (d / L)) as [_ | N]; [| lra].
  destruct (Rle_dec (d / L) 1) as [_ | N]; [| lra].
  eexists. split; [reflexivity |].
  pose proof (acos_bound (d / L)) as [Hlo Hhi].
  pose proof PI_RGT_0 as Hpi.
  split.
  - apply Rmult_le_reg_r with PI; [lra |].
    unfold Rdiv. rewrite Rmult_assoc, Rinv_l by lra. nra.
  - apply Rmult_le_reg_r with PI; [lra |].
    unfold Rdiv. rewrite Rmult_assoc, Rinv_l by lra. nra.
Qed.

Lemma sum_squares_zero (x y z : R) :
  0 + x ^ 2 + y ^ 2 + z ^ 2 = 0 -> x = 0 /\ y = 0 /\ z = 0.
Proof.
  intros E.
  pose proof (pow2_ge_0 x) as Hx. pose proof (pow2_ge_0 y) as Hy.
  pose proof (pow2_ge_0 z) as Hz.
  assert (Ex : x ^ 2 = 0) by lra.
  assert (Ey : y ^ 2 = 0) by lra.
  assert (Ez : z ^ 2 = 0) by lra.
  repeat split.
  - destruct (Req_dec x 0) as [H | H]; [exact H |].
    exfalso. exact (pow_nonzero x 2 H Ex).
  - destruct (Req_dec y 0) as [H | H]; [exact H |].
    exfalso. exact (pow_nonzero y 2 H Ey).
  - destruct (Req_dec z 0) as [H | H]; [exact H |].
    exfalso. exact (pow_nonzero z 2 H Ez).
Qed.

(** Away from coincident atoms the bond angle is a number. *)
Lemma bond_angle_defined (a1 a2 a3 b1 b2 b3 c1 c2 c3 : R) :
  [a1; a2; a3] <> [b1; b2; b3] ->
  [c1; c2; c3] <> [b1; b2; b3] ->
  exists t, bond_angle [a1; a2; a3] [b1; b2; b3] [c1; c2; c3] = Ok (Some t).
Proof.
  intros Ha Hc.
  unfold bond_angle, minus, dot.
  cbn [List.length Nat.eqb zip_minus bind dot_from].
  unfold sum_squares; cbn [fold_left].
  destruct (degrees_of_cos_defined (b1 - a1) (b2 - a2) (b3 - a3)
              (b1 - c1) (b2 - c2) (b3 - c3)) as (t & Ht & _).
  - intros E. apply Ha. apply sum_squares_zero in E as (E1 & E2 & E3).
    f_equal; [lra | f_equal; [lra | f_equal; lra]].
  - intros E. apply Hc. apply sum_squares_zero in E as (E1 & E2 & E3).
    f_equal; [lra | f_equal; [lra | f_equal; lra]].
  - rewrite Ht. cbn [bind round_value option_map]. eauto.
Qed.

(** Where no three consecutive atoms are on a line (the two normals are
    not zero) the dihedral is a number. *)
Lemma dihedral_defined (a1 a2 a3 b1 b2 b3 c1 c2 c3 d1 d2 d3 : R) :
  cross [b1 - a1; b2 - a2; b3 - a3] [c1 - b1; c2 - b2; c3 - b3]
    <> Ok [0; 0; 0] ->
  cross [c1 - b1; c2 - b2; c3 - b3] [d1 - c1; d2 - c2; d3 - c3]
    <> Ok [0; 0; 0] ->
  exists t,
    dihedral [a1; a2; a3] [b1; b2; b3] [c1; c2; c3] [d1; d2; d3]
    = Ok (Some t).
Proof.
  intros H1 H2.
  unfold dihedral, minus, cross, dot in *.
  cbn [List.length Nat.eqb zip_minus bind dot_from] in *.
  unfold sum_squares; cbn [fold_left].
  match goal with
  | |- context [degrees_of_cos _ (sqrt (0 + ?u1 ^ 2 + ?u2 ^ 2 + ?u3 ^ 2)
                                  * sqrt (0 + ?v1 ^ 2 + ?v2 ^ 2 + ?v3 ^ 2))] =>
      destruct (degrees_of_cos_defined u1 u2 u3 v1 v2 v3) as (t & Ht & _)
  end.
  - intros E. apply H1. apply sum_squares_zero in E as (E1 & E2 & E3).
    rewrite E1, E2, E3. reflexivity.
  - intros E. apply H2. apply sum_squares_zero in E as (E1 & E2 & E3).
    rewrite E1, E2, E3. reflexivity.
  - rewrite Ht. cbn [bind].
    match goal with
    | |- context [Rlt_dec ?s 0] => destruct (Rlt_dec s 0)
    end; cbn [negate round_value option_map]; eauto.
Qed.






(** *** Rounding *)

Lemma sqrt_2_bounds : 14142 / 10000 < sqrt 2 < 141425 / 100000.
Proof.
  assert (H0 : 0 <= sqrt 2) by apply sqrt_pos.
  assert (H1 : sqrt 2 * sqrt 2 = 2) by (apply sqrt_sqrt; lra).
  split; nra.
Qed.

Lemma round4_sqrt_2 : round4 (sqrt 2) = 14142 / 10000.
Proof.
  pose proof sqrt_2_bounds as [Hl Hu].
  unfold round4, round_half_even.
  assert (H : Int_part (sqrt 2 * 10000) = 14142%Z)
    by (symmetry; apply Int_part_spec; lra).
  rewrite H.
  destruct (Rlt_dec (sqrt 2 * 10000 - 14142) (1 / 2)) as [_ | N];
    [reflexivity | lra].
Qed.






End GeometryFacts.

(** *** The driver *)

Section DriverFacts.

Local Open Scope string_scope.

Variable np_float32 : string -> option R.
Variable str_float : value -> string.








Section Loop.

Variable data : list string.
Variable folder_name : string.
Variable num_atom : Z.
Variable inpMB : list string.
Variable s : settings.





End Loop.


Lemma read_inpMB_world (w : World) : snd (read_inpMB w) = w.
Proof.
  unfold read_inpMB. destruct (isfile w _); [| reflexivity].
  unfold readlines. reflexivity.
Qed.

(** Nothing is written before the folder is checked. *)
Lemma prelude_world (argv : list string) (path : string) (w : World) :
  snd (prelude argv path w) = w.
Proof.
  unfold prelude, bindM, readlines, lift, ret.
  destruct (of_option FileNotFoundError (lookup (files w) path)) as [data |];
    [| reflexivity].
  destruct (item data 0) as [line0 |]; [| reflexivity].
  destruct (int _) as [num_atom |]; [| reflexivity].
  destruct (int_div _ _) as [num_conf |]; [| reflexivity].
  pose proof (read_inpMB_world w) as Hw.
  destruct (read_inpMB w) as [[inpMB |] w']; cbn [snd] in Hw; subst w';
    [| reflexivity].
  destruct (read_flags _ _); reflexivity.
Qed.

Lemma main_after_prelude (argv : list string) (path folder_name : string)
  (w : World) :
  main np_float32 str_float argv path folder_name w
  = match fst (prelude argv path w) with
    | Ok (data, num_atom, inpMB, s) =>
        (claim_folder folder_name ;;;
         acc <~ conformers np_float32 str_float data folder_name num_atom
                  inpMB s (range (trsd s)) empty_series ;;
         plots s acc ;;;
         ret acc) w
    | Raise e => (Raise e, w)
    end.
Proof.
  pose proof (prelude_world argv path w) as Hw.
  unfold main, bindM at 1.
  destruct (prelude argv path w) as [[locals | e] w']; cbn [fst snd] in *;
    subst w'.
  - destruct locals as [[[data num_atom] inpMB] s]. reflexivity.
  - reflexivity.
Qed.

Lemma main_existing_folder (argv : list string) (path folder_name : string)
  (w : World) :
  exists_ w folder_name = true ->
  (forall locals, fst (prelude argv path w) = Ok locals ->
     main np_float32 str_float argv path folder_name w
     = (Raise SystemExit,
        mkWorld (files w) (dirs w)
                (stdout w ++ ["Folder " ++ folder_name ++ " already exists."])
                (cwd w)))
  /\ (forall e, fst (prelude argv path w) = Raise e ->
       main np_float32 str_float argv path folder_name w = (Raise e, w)).
Proof.
  intros Hex. rewrite main_after_prelude.
  destruct (fst (prelude argv path w)) as [locals | e].
  - split; [| intros e H; discriminate H]. intros locals' _.
    destruct locals as [[[data num_atom] inpMB] s].
    unfold bindM at 1. unfold claim_folder. rewrite Hex. cbn [negb].
    reflexivity.
  - split; [intros locals H; discriminate H |].
    intros e' H. inversion H. reflexivity.
Qed.

(** C8: when the output folder exists already, the run ends without a
    result and leaves every file and folder as it was; when the
    statements before the check succeed (the ensemble file is there, its
    first line and the command-line numbers are integers), the run prints
    that the folder exists and exits. *)
Theorem C8_existing_folder (argv : list string) (path folder_name : string)
  (w : World) (Hex : exists_ w folder_name = true) :
  files_untouched w (snd (main np_float32 str_float argv path folder_name w))
  /\ (forall acc,
         fst (main np_float32 str_float argv path folder_name w) <> Ok acc)
  /\ (forall locals, fst (prelude argv path w) = Ok locals ->
        main np_float32 str_float argv path folder_name w
        = (Raise SystemExit,
           mkWorld (files w) (dirs w)
                   (stdout w
                    ++ ["Folder " ++ folder_name ++ " already exists."])
                   (cwd w))).
Proof.
  destruct (main_existing_folder argv path folder_name w Hex) as [Hok Hraise].
  destruct (fst (prelude argv path w)) as [locals | e] eqn:Hp.
  - rewrite (Hok locals eq_refl). cbn [fst snd].
    split; [split; reflexivity |]. split.
    + intros acc H. discriminate H.
    + intros _ _. reflexivity.
  - rewrite (Hraise e eq_refl). cbn [fst snd].
    split; [split; reflexivity |]. split.
    + intros acc H. discriminate H.
    + intros locals H. discriminate H.
Qed.


End DriverFacts.

Section Runs.

Local Open Scope string_scope.


(** A run with [-l 1 2] on one frame: the rounded distance is what the
    series holds and what the log receives. *)
Lemma main_logs_rounded_length (str_float : value -> string) :
  main integer_real str_float ["xyz2com_crest_pc.py"; "-l"; "1"; "2"]
       "./crest_conformers.xyz" "crest_conformers"
       (world_with "./crest_conformers.xyz" one_frame)
  = (Ok (mkSeries [Some (14142 / 10000)%R] [] []),
     mkWorld
       [("./crest_conformers.xyz", one_frame);
        ("./crest_conformers/bond_length.txt",
         ["1" ++ tab; str_float (Some (14142 / 10000)%R); nl]);
        ("./crest_conformers/crest_conformers_1.com",
         ["%mem=48GB" ++ nl; "%nprocshared=24" ++ nl;
          "# opt freq b3lyp/def2svp em=gd3bj" ++ nl; nl; "Title" ++ nl; nl;
          "0 1" ++ nl; "H 0 0 0" ++ nl; "H 1 1 0" ++ nl; nl]);
        ("Bond_1and2.png", [])]
       ["crest_conformers"] [] "/home/user").
Proof.
  rewrite <- round4_sqrt_2.
  replace 2%R with (0 + (0 - 1) ^ 2 + (0 - 1) ^ 2 + (0 - 0) ^ 2)%R by lra.
  lazy -[Rplus Rminus Rmult Rdiv IZR sqrt pow round4 Rinv Ropp].
  reflexivity.
Qed.




Lemma C8_existing_folder_witness :
  exists_ occupied "crest_conformers" = true
  /\ files_untouched occupied
       (snd (main integer_real no_text ["xyz2com_crest_pc.py"]
                  "./crest_conformers.xyz" "crest_conformers" occupied))
  /\ (forall acc,
         fst (main integer_real no_text ["xyz2com_crest_pc.py"]
                   "./crest_conformers.xyz" "crest_conformers" occupied)
         <> Ok acc)
  /\ (forall locals,
         fst (prelude ["xyz2com_crest_pc.py"] "./crest_conformers.xyz"
                      occupied) = Ok locals ->
         main integer_real no_text ["xyz2com_crest_pc.py"]
              "./crest_conformers.xyz" "crest_conformers" occupied
         = (Raise SystemExit,
            mkWorld (files occupied) (dirs occupied)
                    (stdout occupied
                     ++ ["Folder " ++ "crest_conformers" ++ " already exists."])
                    (cwd occupied))).
Proof.
  assert (H : exists_ occupied "crest_conformers" = true) by reflexivity.
  split; [exact H |].
  exact (C8_existing_folder integer_real no_text ["xyz2com_crest_pc.py"]
           "./crest_conformers.xyz" "crest_conformers" occupied H).
Defined.

End Runs.

End Xyz2comFacts.

(** * Further properties *)

(** ** The file system *)

Module IOFacts.

Import Notions.

Lemma lookup_update_same (fs : list (string * list string)) (p : string)
  (c : list string) :
  lookup (update fs p c) p = Some c.
Proof.
  induction fs as [| [q d] fs IH]; cbn [update lookup].
  - now rewrite String.eqb_refl.
  - destruct (String.eqb p q) eqn:Hpq; cbn [lookup]; rewrite Hpq;
      [reflexivity | exact IH].
Qed.

Lemma lookup_update_other (fs : list (string * list string)) (p q : string)
  (c : list string) :
  q <> p -> lookup (update fs p c) q = lookup fs q.
Proof.
  intros Hqp. apply String.eqb_neq in Hqp.
  induction fs as [| [r d] fs IH]; cbn [update lookup].
  - now rewrite Hqp.
  - destruct (String.eqb p r) eqn:Hpr; cbn [lookup].
    + apply String.eqb_eq in Hpr. subst r. now rewrite Hqp.
    + now rewrite IH.
Qed.

Lemma update_update (fs : list (string * list string)) (p : string)
  (c c' : list string) :
  update (update fs p c) p c' = update fs p c'.
Proof.
  induction fs as [| [q d] fs IH]; cbn [update].
  - now rewrite String.eqb_refl.
  - destruct (String.eqb p q) eqn:Hpq; cbn [update]; rewrite Hpq;
      [reflexivity | now rewrite IH].
Qed.

Lemma write_set_file (w : World) (p s : string) (c : list string) :
  write p s (set_file w p c) = (Ok tt, set_file w p (c ++ [s])).
Proof.
  unfold write, set_file. cbn [files dirs stdout cwd].
  now rewrite lookup_update_same, update_update.
Qed.

Lemma for_each_write {A} (p : string) (f : A -> string) (l : list A) :
  forall (w : World) (c : list string),
    for_each l (fun a => write p (f a)) (set_file w p c)
    = (Ok tt, set_file w p (c ++ map f l)).
Proof.
  induction l as [| a l IH]; intros w c; cbn [for_each map].
  - now rewrite app_nil_r.
  - unfold bindM. rewrite write_set_file. rewrite IH.
    now rewrite <- app_assoc.
Qed.

Lemma for_each_write_pairs {A B} (p : string) (g : A -> B -> string)
  (l : list (A * B)) :
  forall (w : World) (c : list string),
    for_each l (fun '(a, b) => write p (g a b)) (set_file w p c)
    = (Ok tt, set_file w p (c ++ map (fun '(a, b) => g a b) l)).
Proof.
  induction l as [| [a b] l IH]; intros w c; cbn [for_each map].
  - now rewrite app_nil_r.
  - unfold bindM. rewrite write_set_file. rewrite IH.
    now rewrite <- app_assoc.
Qed.

(** ** Copying lines into a file *)




(** ** Commands that only add files *)

Lemma only_adds_files_refl (w : World) : only_adds_files w w.
Proof. split; [| split]; [reflexivity | reflexivity | auto]. Qed.

Lemma only_adds_files_trans (w1 w2 w3 : World) :
  only_adds_files w1 w2 -> only_adds_files w2 w3 -> only_adds_files w1 w3.
Proof.
  intros (C1 & D1 & F1) (C2 & D2 & F2).
  split; [congruence | split; [congruence | auto]].
Qed.

Lemma isfile_set_file (w : World) (p q : string) (c : list string) :
  isfile w q = true -> isfile (set_file w p c) q = true.
Proof.
  unfold isfile, set_file. cbn [files].
  induction (files w) as [| [r d] fs IH]; cbn [lookup update].
  - intros H. discriminate H.
  - destruct (String.eqb p r) eqn:Hpr; cbn [lookup];
      destruct (String.eqb q r); auto.
Qed.

Lemma only_adds_files_set_file (w : World) (p : string) (c : list string) :
  only_adds_files w (set_file w p c).
Proof.
  split; [reflexivity | split; [reflexivity |]].
  intros q. apply isfile_set_file.
Qed.

Lemma adds_files_ret {A} (a : A) : adds_files (ret a).
Proof. intros w. apply only_adds_files_refl. Qed.

Lemma adds_files_lift {A} (r : result A) : adds_files (lift r).
Proof. intros w. apply only_adds_files_refl. Qed.

Lemma adds_files_bind {A B} (c : M A) (k : A -> M B) :
  adds_files c -> (forall a, adds_files (k a)) -> adds_files (bindM c k).
Proof.
  intros Hc Hk w. unfold bindM. specialize (Hc w).
  destruct (c w) as [[a | e] w']; cbn [snd] in *; [| exact Hc].
  apply (only_adds_files_trans w w'); [exact Hc | apply Hk].
Qed.

Lemma adds_files_open_truncate (p : string) : adds_files (open_truncate p).
Proof. intros w. apply only_adds_files_set_file. Qed.

Lemma adds_files_open_append (p : string) : adds_files (open_append p).
Proof.
  intros w. unfold open_append.
  destruct (lookup (files w) p);
    [apply only_adds_files_refl | apply only_adds_files_set_file].
Qed.

Lemma adds_files_write (p : string) (text : World -> string) :
  adds_files (fun w => write p (text w) w).
Proof.
  intros w. unfold write.
  destruct (lookup (files w) p); apply only_adds_files_set_file.
Qed.

Lemma adds_files_for_each {A} (l : list A) (body : A -> M unit) :
  (forall a, adds_files (body a)) -> adds_files (for_each l body).
Proof.
  intros Hbody. induction l as [| a l IH]; cbn [for_each].
  - apply adds_files_ret.
  - apply adds_files_bind; [apply Hbody | intros _; exact IH].
Qed.

End IOFacts.

(** * Further properties of rmsd_conformer_xyz.py *)

Module RmsdMore.

Import Rmsd.
Import F64Facts.
Import RmsdFacts.
Import Notions.
Import IOFacts.

(** ** [calculate_rmsd] does not depend on the order of its arguments *)

Lemma abs_binary_round_aux (s s' : bool) (m e : Z) (l : location) :
  SFabs (binary_round_aux F64.prec F64.emax s m e l)
  = SFabs (binary_round_aux F64.prec F64.emax s' m e l).
Proof.
  unfold binary_round_aux.
  destruct (shr_fexp F64.prec F64.emax m e l) as [mrs' e'].
  destruct (shr_fexp F64.prec F64.emax _ e' loc_Exact) as [mrs'' e''].
  destruct (shr_m mrs'') as [| p | p]; try reflexivity.
  destruct (e'' <=? F64.emax - F64.prec); reflexivity.
Qed.

Lemma abs_binary_normalize_opp (m e : Z) :
  SFabs (binary_normalize F64.prec F64.emax (- m) e false)
  = SFabs (binary_normalize F64.prec F64.emax m e false).
Proof.
  destruct m as [| p | p]; cbn [Z.opp binary_normalize]; try reflexivity;
    unfold binary_round;
    destruct (shl_align p e _) as [mz ez]; apply abs_binary_round_aux.
Qed.

Lemma abs_sub_comm (x y : F64.float) :
  SFabs (F64.sub x y) = SFabs (F64.sub y x).
Proof.
  destruct x as [sx | sx | | sx mx ex], y as [sy | sy | | sy my ey];
    try (destruct sx); try (destruct sy); try reflexivity.
  all: unfold F64.sub, SFsub; rewrite (Z.min_comm ey ex);
    rewrite <- abs_binary_normalize_opp; f_equal; f_equal; cbn [cond_Zopp]; lia.
Qed.

Lemma square_abs (z : F64.float) : square z = square (SFabs z).
Proof.
  destruct z as [s | s | | s m e]; try destruct s; reflexivity.
Qed.

Lemma square_sub_comm (x y : F64.float) :
  square (F64.sub x y) = square (F64.sub y x).
Proof.
  rewrite (square_abs (F64.sub x y)), (square_abs (F64.sub y x)).
  now rewrite abs_sub_comm.
Qed.

Lemma broadcast_sub_same_length (a b : frame) :
  List.length a = List.length b -> broadcast_sub a b = Ok (zip_sub a b).
Proof.
  intros Hlen.
  destruct a as [| p [| p' a]], b as [| q [| q' b]];
    try discriminate Hlen; try reflexivity.
  cbn [broadcast_sub]. rewrite Hlen, Nat.eqb_refl. reflexivity.
Qed.

Lemma squares_zip_sub_comm (a : frame) :
  forall b : frame,
    map square (flatten (zip_sub a b)) = map square (flatten (zip_sub b a)).
Proof.
  induction a as [| p a IH]; intros [| q b]; try reflexivity.
  cbn [zip_sub flatten flat_map app map vsub vx vy vz].
  fold (flatten (zip_sub a b)). fold (flatten (zip_sub b a)).
  rewrite IH.
  now rewrite (square_sub_comm (vx p)), (square_sub_comm (vy p)),
    (square_sub_comm (vz p)).
Qed.

(** X1.  For two frames with the same number of atoms, [calculate_rmsd]
    returns the same float whichever frame comes first: the differences
    only change sign, and their squares are the same floats. *)
Theorem calculate_rmsd_symmetric (a b : frame)
  (Hlen : List.length a = List.length b) :
  calculate_rmsd a b = calculate_rmsd b a.
Proof.
  unfold calculate_rmsd.
  rewrite (broadcast_sub_same_length a b Hlen).
  rewrite (broadcast_sub_same_length b a (eq_sym Hlen)).
  cbn [bind]. now rewrite squares_zip_sub_comm, Hlen.
Qed.

Lemma calculate_rmsd_symmetric_witness :
  List.length two_atoms_a = List.length two_atoms_b
  /\ calculate_rmsd two_atoms_a two_atoms_b
     = calculate_rmsd two_atoms_b two_atoms_a.
Proof.
  split; [reflexivity |].
  apply (calculate_rmsd_symmetric two_atoms_a two_atoms_b). reflexivity.
Defined.

(** ** [calculate_rmsd] never returns a negative float *)

Lemma round_not_negative (m e : Z) (l : location) :
  not_negative (binary_round_aux F64.prec F64.emax false m e l) = true.
Proof.
  unfold binary_round_aux.
  destruct (shr_fexp F64.prec F64.emax m e l) as [mrs' e'].
  destruct (shr_fexp F64.prec F64.emax _ e' loc_Exact) as [mrs'' e''].
  destruct (shr_m mrs'') as [| p | p]; try reflexivity.
  destruct (e'' <=? F64.emax - F64.prec); reflexivity.
Qed.

Lemma binary_round_not_negative (m : positive) (e : Z) :
  not_negative (binary_round F64.prec F64.emax false m e) = true.
Proof.
  unfold binary_round. destruct (shl_align m e _) as [mz ez].
  apply round_not_negative.
Qed.

Lemma square_not_negative (x : F64.float) : not_negative (square x) = true.
Proof.
  destruct x as [s | s | | s m e]; try reflexivity;
    try (destruct s; reflexivity).
  unfold square, F64.mul, SFmul.
  replace (xorb s s) with false by (now destruct s).
  apply round_not_negative.
Qed.

Lemma add_not_negative (x y : F64.float) :
  not_negative x = true -> not_negative y = true ->
  not_negative (F64.add x y) = true.
Proof.
  intros Hx Hy.
  destruct x as [sx | sx | | sx mx ex], y as [sy | sy | | sy my ey];
    try (destruct sx); try (destruct sy);
    try reflexivity; try discriminate Hx; try discriminate Hy;
    try exact Hx; try exact Hy.
  unfold F64.add, SFadd. cbn [cond_Zopp Z.add binary_normalize].
  apply binary_round_not_negative.
Qed.

Lemma np_sum_not_negative (l : list F64.float) :
  Forall (fun x => not_negative x = true) l ->
  not_negative (np_sum l) = true.
Proof.
  unfold np_sum.
  assert (H : forall acc, not_negative acc = true ->
                          Forall (fun x => not_negative x = true) l ->
                          not_negative (fold_left F64.add l acc) = true).
  { induction l as [| x l IH]; intros acc Hacc Hl; [exact Hacc |].
    inversion Hl as [| ? ? Hx Hl']; subst. cbn [fold_left].
    apply IH; [now apply add_not_negative | exact Hl']. }
  apply H. reflexivity.
Qed.

Lemma div_by_count_not_negative (x : F64.float) (n : nat) :
  not_negative x = true ->
  not_negative (F64.div x (F64.of_Z (Z.of_nat n))) = true.
Proof.
  intros Hx.
  destruct (Z.of_nat n) as [| p | p] eqn:Hn; [| | lia].
  - change (F64.of_Z 0) with (S754_zero false).
    destruct x as [sx | sx | | sx mx ex];
      try (destruct sx); try reflexivity; discriminate Hx.
  - destruct (of_Z_positive p) as [[m [e Hp]] | Hp]; rewrite Hp;
      destruct x as [sx | sx | | sx mx ex];
      try (destruct sx); try reflexivity; try discriminate Hx.
    unfold F64.div, SFdiv. cbn [xorb].
    destruct (SFdiv_core_binary _ _ _ _ _ _) as [[mz ez] lz].
    apply round_not_negative.
Qed.

Lemma sqrt_not_negative (x : F64.float) :
  not_negative x = true -> not_negative (F64.sqrt x) = true.
Proof.
  intros Hx.
  destruct x as [sx | sx | | sx mx ex];
    try (destruct sx); try reflexivity; try discriminate Hx.
  unfold F64.sqrt, SFsqrt.
  destruct (SFsqrt_core_binary _ _ _ _) as [[mz ez] lz].
  apply round_not_negative.
Qed.

Lemma not_negative_spec (x : F64.float) :
  not_negative x = true ->
  (F64.is_nan x = true \/ F64.leb F64.zero x = true)
  /\ F64.ltb x F64.zero = false.
Proof.
  intros Hx.
  destruct x as [sx | sx | | sx mx ex];
    try (destruct sx); try discriminate Hx;
    (split; [first [left; reflexivity | right; reflexivity] | reflexivity]).
Qed.

(** X2.  Whatever the two frames hold, a value that [calculate_rmsd]
    returns is NaN or at least zero; it is never below zero, so the
    classifier never receives a negative number. *)
Theorem calculate_rmsd_not_negative (a b : frame) (v : F64.float)
  (Hv : calculate_rmsd a b = Ok v) :
  (F64.is_nan v = true \/ F64.leb F64.zero v = true)
  /\ F64.ltb v F64.zero = false.
Proof.
  unfold calculate_rmsd in Hv.
  destruct (broadcast_sub a b) as [diff |]; [| discriminate Hv].
  cbn [bind] in Hv. injection Hv as <-.
  apply not_negative_spec, sqrt_not_negative, div_by_count_not_negative.
  apply np_sum_not_negative. apply Forall_forall.
  intros x Hx. apply in_map_iff in Hx as [y [<- _]].
  apply square_not_negative.
Qed.

Lemma calculate_rmsd_not_negative_witness :
  exists v,
    calculate_rmsd two_atoms_a two_atoms_b = Ok v
    /\ (F64.is_nan v = true \/ F64.leb F64.zero v = true)
    /\ F64.ltb v F64.zero = false.
Proof.
  eexists. split; [vm_compute; reflexivity |].
  apply (calculate_rmsd_not_negative two_atoms_a two_atoms_b).
  vm_compute. reflexivity.
Defined.

(** ** Recentring twice *)

Lemma sub_zero (x : F64.float) : F64.sub x F64.zero = x.
Proof.
  destruct x as [s | s | | s m e]; try destruct s; reflexivity.
Qed.

Lemma vsub_origin (p : vec3) : vsub p origin = p.
Proof.
  destruct p as [x y z]. unfold vsub, origin. cbn [vx vy vz].
  now rewrite !sub_zero.
Qed.

(** X3.  Recentring a frame whose first atom has finite coordinates, and
    recentring the result again, gives the same frame: after the first
    pass atom 0 sits at [+0.0], and subtracting [+0.0] changes no float. *)
Theorem adjust_idempotent (p0 : vec3) (rest : frame)
  (Hfinite : vec3_finite p0 = true) :
  exists frame',
    adjust_relative_to_first_atom (p0 :: rest) = Ok frame'
    /\ adjust_relative_to_first_atom frame' = Ok frame'.
Proof.
  eexists. split; [reflexivity |].
  cbn [map adjust_relative_to_first_atom].
  rewrite (vsub_self p0 Hfinite). rewrite vsub_origin.
  f_equal. f_equal. rewrite map_map.
  apply map_ext. intros p. apply vsub_origin.
Qed.

Lemma adjust_idempotent_witness :
  vec3_finite (V3 F64.lit_1_0 F64.lit_2_0 F64.zero) = true
  /\ exists frame',
      adjust_relative_to_first_atom two_atoms_a = Ok frame'
      /\ adjust_relative_to_first_atom frame' = Ok frame'.
Proof.
  split; [reflexivity |].
  apply (adjust_idempotent (V3 F64.lit_1_0 F64.zero F64.zero)
                           [V3 F64.lit_2_0 F64.zero F64.zero]).
  reflexivity.
Defined.

(** ** Empty ensembles and empty frames *)

Lemma recenter_empty_frame (cs : list frame) :
  In [] cs -> mapM adjust_relative_to_first_atom cs = Raise IndexError.
Proof.
  induction cs as [| c cs IH]; intros Hin; [destruct Hin |].
  destruct c as [| p c]; [reflexivity |].
  destruct Hin as [Hc | Hin]; [discriminate Hc |].
  cbn [mapM adjust_relative_to_first_atom bind]. now rewrite (IH Hin).
Qed.

(** X4.  Steps 2 and 3 of [main] raise [IndexError] when the file held no
    frame at all, and when some frame has no atom (a count line of [0] or
    less): [coords[0]] and [adjusted_conformers[0]] index an empty
    sequence. *)
Theorem rmsd_values_of_empty (cs : list frame) (Hempty : cs = [] \/ In [] cs) :
  rmsd_values_of cs = Raise IndexError.
Proof.
  unfold rmsd_values_of.
  destruct Hempty as [-> | Hin]; [reflexivity |].
  now rewrite (recenter_empty_frame cs Hin).
Qed.

Lemma rmsd_values_of_empty_witness :
  ([two_atoms_a; []] = [] \/ In [] [two_atoms_a; []])
  /\ rmsd_values_of [two_atoms_a; []] = Raise IndexError.
Proof.
  assert (H : [two_atoms_a; []] = [] \/ In [] [two_atoms_a; []])
    by (right; right; left; reflexivity).
  split; [exact H |].
  apply (rmsd_values_of_empty [two_atoms_a; []]). exact H.
Defined.

(** ** The lists of conformer numbers *)

Lemma enumerate_from_bounds {A} (l : list A) :
  forall (s : Z) (n : Z) (a : A),
    In (n, a) (enumerate_from s l) -> s <= n < s + Z.of_nat (List.length l).
Proof.
  induction l as [| x l IH]; intros s n a Hin; [destruct Hin |].
  cbn [enumerate_from List.length] in *.
  destruct Hin as [Heq | Hin].
  - injection Heq as <- _. lia.
  - apply IH in Hin. lia.
Qed.

Lemma enumerate_from_sorted {A} (P : Z * A -> bool) (l : list A) :
  forall s : Z,
    StronglySorted Z.lt (map fst (filter P (enumerate_from s l))).
Proof.
  induction l as [| x l IH]; intros s; cbn [enumerate_from filter map].
  - constructor.
  - destruct (P (s, x)); [| apply IH].
    cbn [map fst]. constructor; [apply IH |].
    apply Forall_forall. intros n Hn.
    apply in_map_iff in Hn as [[n' a] [<- Hin]].
    apply filter_In in Hin as [Hin _].
    apply enumerate_from_bounds in Hin. cbn [fst]. lia.
Qed.

(** X5.  Each list of [categories] holds conformer numbers between 1 and
    the number of RMSD values, in strictly increasing order. *)
Theorem categorize_sorted (rmsd_values : list F64.float) (b : band) :
  StronglySorted Z.lt (categorize rmsd_values b)
  /\ Forall (fun n => 1 <= n <= Z.of_nat (List.length rmsd_values))
            (categorize rmsd_values b).
Proof.
  unfold categorize. rewrite categorize_from_spec.
  cbn [empty_categories app Z.add]. split.
  - apply enumerate_from_sorted.
  - apply Forall_forall. intros n Hn.
    apply in_map_iff in Hn as [[n' a] [<- Hin]].
    apply filter_In in Hin as [Hin _].
    apply enumerate_from_bounds in Hin. cbn [fst]. lia.
Qed.

(** ** The classifier is monotone *)

Ltac order_cases :=
  repeat match goal with
         | |- context [Z.compare ?a ?b] =>
             destruct (Z.compare_spec a b); try lia; subst
         | H : context [Z.compare ?a ?b] |- _ =>
             destruct (Z.compare_spec a b); try lia; subst
         | |- context [Pos.compare ?a ?b] =>
             destruct (Pos.compare_spec a b); try lia; subst
         | H : context [Pos.compare ?a ?b] |- _ =>
             destruct (Pos.compare_spec a b); try lia; subst
         end.

Lemma below_threshold_down (x y : F64.float) (m : positive) (e : Z) :
  F64.leb x y = true ->
  F64.ltb y (S754_finite false m e) = true ->
  F64.ltb x (S754_finite false m e) = true.
Proof.
  unfold F64.leb, F64.ltb, SFleb, SFltb.
  destruct x as [sx | sx | | sx mx ex], y as [sy | sy | | sy my ey];
    try (destruct sx); try (destruct sy); cbn [SFcompare];
    intros Hxy Hyc; try reflexivity; try discriminate Hxy;
    try discriminate Hyc; try exact Hyc.
  all: change PosDef.Pos.compare_cont with Pos.compare_cont in *;
    fold (Pos.compare mx my) in *; fold (Pos.compare my m) in *;
    fold (Pos.compare mx m) in *.
  all: order_cases; try reflexivity; try discriminate Hxy;
    try discriminate Hyc.
Qed.

Lemma not_below_threshold (x : F64.float) (m : positive) (e : Z) :
  F64.is_nan x = false ->
  F64.ltb x (S754_finite false m e) = false ->
  F64.leb (S754_finite false m e) x = true.
Proof.
  unfold F64.leb, F64.ltb, SFleb, SFltb.
  destruct x as [sx | sx | | sx mx ex];
    try (destruct sx); cbn [SFcompare F64.is_nan];
    intros Hx Hxc; try reflexivity; try discriminate Hx;
    try discriminate Hxc.
  change PosDef.Pos.compare_cont with Pos.compare_cont in *.
  fold (Pos.compare mx m) in *; fold (Pos.compare m mx) in *.
  order_cases; try reflexivity; try discriminate Hxc.
Qed.

Lemma literals_positive :
  Forall (fun c => exists m e, c = S754_finite false m e)
         [F64.lit_0_5; F64.lit_1_0; F64.lit_2_0].
Proof. repeat constructor; eexists; eexists; reflexivity. Qed.

Lemma below_literal_down (x y c : F64.float) :
  In c [F64.lit_0_5; F64.lit_1_0; F64.lit_2_0] ->
  F64.leb x y = true -> F64.ltb y c = true -> F64.ltb x c = true.
Proof.
  intros Hc.
  destruct (proj1 (Forall_forall _ _) literals_positive c Hc) as [m [e ->]].
  apply below_threshold_down.
Qed.

Lemma not_below_literal (x c : F64.float) :
  In c [F64.lit_0_5; F64.lit_1_0; F64.lit_2_0] ->
  F64.is_nan x = false -> F64.ltb x c = false -> F64.leb c x = true.
Proof.
  intros Hc.
  destruct (proj1 (Forall_forall _ _) literals_positive c Hc) as [m [e ->]].
  apply not_below_threshold.
Qed.

Lemma leb_not_nan (x y : F64.float) :
  F64.leb x y = true -> F64.is_nan x = false /\ F64.is_nan y = false.
Proof.
  destruct x as [sx | sx | | sx mx ex], y as [sy | sy | | sy my ey];
    try (destruct sx); try (destruct sy); intros H;
    try discriminate H; split; reflexivity.
Qed.

(** What [classify] returns for a float that is not NaN, in terms of the
    three comparisons [rmsd < 0.5], [rmsd < 1.0] and [rmsd < 2.0]. *)
Lemma classify_by_thresholds (x : F64.float) :
  F64.is_nan x = false ->
  classify x
  = if F64.ltb x F64.lit_0_5 then smaller_than_0_5
    else if F64.ltb x F64.lit_1_0 then from_0_5_to_1_0
    else if F64.ltb x F64.lit_2_0 then from_1_0_to_2_0
    else above_2_0.
Proof.
  intros Hx. unfold classify.
  destruct (F64.ltb x F64.lit_0_5) eqn:H05; [reflexivity |].
  rewrite (not_below_literal x F64.lit_0_5) by (cbn [In]; auto). cbn [andb].
  destruct (F64.ltb x F64.lit_1_0) eqn:H10; [reflexivity |].
  rewrite (not_below_literal x F64.lit_1_0) by (cbn [In]; auto). reflexivity.
Qed.

(** X6.  The classifier is monotone: of two floats with [x <= y], [x]
    never lands in a later band than [y]. *)
Theorem classify_monotone (x y : F64.float) (Hxy : F64.leb x y = true) :
  (band_rank (classify x) <= band_rank (classify y))%nat.
Proof.
  destruct (leb_not_nan x y Hxy) as [Hx Hy].
  rewrite (classify_by_thresholds x Hx), (classify_by_thresholds y Hy).
  assert (H05 := fun H => below_literal_down x y F64.lit_0_5 H Hxy).
  assert (H10 := fun H => below_literal_down x y F64.lit_1_0 H Hxy).
  assert (H20 := fun H => below_literal_down x y F64.lit_2_0 H Hxy).
  cbn [In] in H05, H10, H20.
  specialize (H05 (or_introl eq_refl)).
  specialize (H10 (or_intror (or_introl eq_refl))).
  specialize (H20 (or_intror (or_intror (or_introl eq_refl)))).
  destruct (F64.ltb x F64.lit_0_5), (F64.ltb x F64.lit_1_0),
    (F64.ltb x F64.lit_2_0), (F64.ltb y F64.lit_0_5),
    (F64.ltb y F64.lit_1_0), (F64.ltb y F64.lit_2_0);
    cbn [band_rank]; try lia;
    try (specialize (H05 eq_refl); discriminate H05);
    try (specialize (H10 eq_refl); discriminate H10);
    try (specialize (H20 eq_refl); discriminate H20).
Qed.

Lemma classify_monotone_witness :
  F64.leb F64.lit_0_5 F64.lit_2_0 = true
  /\ (band_rank (classify F64.lit_0_5) <= band_rank (classify F64.lit_2_0))%nat.
Proof.
  split; [reflexivity |].
  apply (classify_monotone F64.lit_0_5 F64.lit_2_0). reflexivity.
Defined.

(** ** Reading the ensemble and writing the report *)


Section ReadMore.

Variable py_float : string -> option F64.float.
Variable format_4f : F64.float -> string.







Lemma write_rmsd_to_file_world (rmsd_values : list F64.float)
  (output_file : string) (w : World) :
  write_rmsd_to_file format_4f rmsd_values output_file w
  = (Ok tt,
     set_file w output_file
       ([("RMSD Values and Classification:" ++ nl)%string]
        ++ map (fun '(i, rmsd) => conformer_line format_4f i rmsd)
               (enumerate_from 0 rmsd_values)
        ++ [(nl ++ "Classification:" ++ nl)%string]
        ++ map (category_line (categorize rmsd_values)) bands)).
Proof.
  unfold write_rmsd_to_file, bindM, open_truncate.
  rewrite write_set_file. cbn [app].
  rewrite (for_each_write_pairs output_file (conformer_line format_4f)).
  rewrite write_set_file.
  rewrite (for_each_write output_file (category_line (categorize rmsd_values))).
  cbn [app]. now rewrite <- !app_assoc.
Qed.


(** X10.  Whatever happens, [main] changes no file other than
    [output_file], no folder and not the working directory; when it
    raises, it has written and printed nothing; a missing input file
    raises [FileNotFoundError]. *)
Theorem rmsd_main_effects (file_path output_file : string) (w : World) :
  differs_at_file output_file w
    (snd (main py_float format_4f file_path output_file w))
  /\ (forall e,
         fst (main py_float format_4f file_path output_file w) = Raise e ->
         snd (main py_float format_4f file_path output_file w) = w)
  /\ (lookup (files w) file_path = None ->
      fst (main py_float format_4f file_path output_file w)
      = Raise FileNotFoundError).
Proof.
  assert (Hsame : differs_at_file output_file w w)
    by (split; [| split]; reflexivity).
  unfold main, bindM, readlines.
  destruct (lookup (files w) file_path) as [lines |]; cbn [of_option];
    [| split; [exact Hsame | split; reflexivity]].
  unfold lift.
  destruct (read_xyz py_float lines) as [conformers | e1];
    [| split; [exact Hsame | split; [reflexivity | intros H; discriminate H]]].
  destruct (rmsd_values_of conformers) as [rmsd_values | e2];
    [| split; [exact Hsame | split; [reflexivity | intros H; discriminate H]]].
  rewrite write_rmsd_to_file_world. cbn [snd fst print set_file].
  split; [| split; [intros e H; discriminate H | intros H; discriminate H]].
  split; [reflexivity | split; [reflexivity |]].
  cbn [files]. intros q Hq. now apply lookup_update_other.
Qed.



End ReadMore.





End RmsdMore.

(** * Further properties of xyz2com_crest_pc.py *)

Module Xyz2comMore.

Import Xyz2com.
Import Xyz2comFacts.
Import Notions.
Import IOFacts.

Section GeometryMore.

Local Open Scope R_scope.

(** ** The ranges of the two angles *)








(** ** [calc_length] and the number of components *)









(** ** Degenerate geometries *)






End GeometryMore.



(** ** The Gaussian input of one conformer *)

Section ComFile.

Local Open Scope string_scope.

Variable data : list string.
Variable folder_name : string.
Variable num_atom : Z.
Variable inpMB : list string.
Variable s : settings.





End ComFile.

(** ** Runs of [main] *)

Section DriverMore.

Local Open Scope string_scope.

Variable np_float32 : string -> option R.
Variable str_float : value -> string.

Ltac adds :=
  repeat first
    [ apply adds_files_ret
    | apply adds_files_lift
    | apply adds_files_open_truncate
    | apply adds_files_open_append
    | apply (adds_files_write _ (fun _ => _))
    | apply adds_files_for_each; intros ?
    | apply adds_files_bind; [| intros ?] ].

Lemma adds_files_log_value (path : string) (i : Z) (v : value) :
  adds_files (log_value str_float path i v).
Proof. unfold log_value. adds. Qed.

Lemma adds_files_conformer (data : list string) (folder_name : string)
  (num_atom : Z) (inpMB : list string) (s : settings) (i : Z) (acc : series) :
  adds_files (conformer np_float32 str_float data folder_name num_atom inpMB s
                        i acc).
Proof.
  unfold conformer, measure_length, measure_angle, measure_dihedral, write_com,
    write_atoms, write_inpMB.
  apply adds_files_bind; [| intros acc1; apply adds_files_bind;
                            [| intros acc2; apply adds_files_bind;
                               [| intros acc3]]].
  - destruct (_ && _)%bool; [| adds].
    apply adds_files_bind; [adds | intros v].
    apply adds_files_bind; [apply adds_files_log_value | intros _; adds].
  - destruct (_ && _)%bool; [| adds].
    apply adds_files_bind; [adds | intros v].
    apply adds_files_bind; [apply adds_files_log_value | intros _; adds].
  - destruct (_ && _)%bool; [| adds].
    apply adds_files_bind; [adds | intros v].
    apply adds_files_bind; [apply adds_files_log_value | intros _; adds].
  - apply adds_files_bind; [| intros _; adds].
    apply adds_files_bind; [adds | intros _].
    apply adds_files_bind; [adds | intros _].
    apply adds_files_bind; [adds | intros _].
    apply adds_files_bind; [| intros _].
    + destruct (bool_chk s); [| adds].
      apply (adds_files_write _ (fun w => _)).
    + destruct (_ <=? _)%nat; adds.
Qed.

Lemma adds_files_conformers (data : list string) (folder_name : string)
  (num_atom : Z) (inpMB : list string) (s : settings) (todo : list Z) :
  forall acc : series,
    adds_files (conformers np_float32 str_float data folder_name num_atom
                           inpMB s todo acc).
Proof.
  induction todo as [| i todo IH]; intros acc; cbn [conformers].
  - apply adds_files_ret.
  - apply adds_files_bind; [apply adds_files_conformer | exact IH].
Qed.

Lemma adds_files_plots (s : settings) (acc : series) : adds_files (plots s acc).
Proof.
  unfold plots, savefig.
  apply adds_files_bind;
    [destruct (bd_length_asb acc); adds | intros _].
  apply adds_files_bind;
    [destruct (angle_asb acc); adds | intros _].
  destruct (dihedral_asb acc); adds.
Qed.

Lemma adds_files_after_folder (data : list string) (folder_name : string)
  (num_atom : Z) (inpMB : list string) (s : settings) :
  adds_files
    (acc <~ conformers np_float32 str_float data folder_name num_atom inpMB s
              (range (trsd s)) empty_series ;;
     plots s acc ;;;
     ret acc).
Proof.
  apply adds_files_bind; [apply adds_files_conformers | intros acc].
  apply adds_files_bind; [apply adds_files_plots | intros _; adds].
Qed.

Lemma main_after_folder (argv : list string) (path folder_name : string)
  (w : World) (data : list string) (num_atom : Z) (inpMB : list string)
  (s : settings) :
  fst (prelude argv path w) = Ok (data, num_atom, inpMB, s) ->
  exists_ w folder_name = false ->
  main np_float32 str_float argv path folder_name w
  = (acc <~ conformers np_float32 str_float data folder_name num_atom inpMB s
              (range (trsd s)) empty_series ;;
     plots s acc ;;;
     ret acc)
      (mkWorld (files w) (dirs w ++ [folder_name]) (stdout w) (cwd w)).
Proof.
  intros Hprelude Hfree. rewrite main_after_prelude, Hprelude.
  unfold bindM at 1. unfold claim_folder. rewrite Hfree. reflexivity.
Qed.

(** X19.  Whatever happens, [main] leaves the working directory alone,
    keeps every file that existed, and keeps every folder; the only
    folder it can add is [folder_name]. *)
Theorem main_never_removes (argv : list string) (path folder_name : string)
  (w : World) :
  let w' := snd (main np_float32 str_float argv path folder_name w) in
  cwd w' = cwd w
  /\ (forall q, isfile w q = true -> isfile w' q = true)
  /\ (dirs w' = dirs w \/ dirs w' = (dirs w ++ [folder_name])%list).
Proof.
  intros w'.
  destruct (fst (prelude argv path w))
    as [[[[data num_atom] inpMB] s] | e] eqn:Hprelude.
  - destruct (exists_ w folder_name) eqn:Hfolder.
    + destruct (main_existing_folder np_float32 str_float argv path
                  folder_name w Hfolder) as [Hexit _].
      specialize (Hexit _ Hprelude). subst w'. rewrite Hexit.
      cbn [snd cwd dirs]. auto.
    + pose proof (main_after_folder argv path folder_name w data num_atom
                    inpMB s Hprelude Hfolder) as Hmain.
      subst w'. rewrite Hmain.
      destruct (adds_files_after_folder data folder_name num_atom inpMB s
                  (mkWorld (files w) (dirs w ++ [folder_name]) (stdout w)
                           (cwd w)))
        as (Hc & Hd & Hf).
      cbn [cwd dirs] in Hc, Hd.
      split; [exact Hc | split; [| right; exact Hd]].
      intros q Hq. apply Hf. exact Hq.
  - pose proof (main_after_prelude np_float32 str_float argv path folder_name w)
      as Hmain.
    rewrite Hprelude in Hmain. subst w'. rewrite Hmain. cbn [snd]. auto.
Qed.


(** X21.  Three errors of the first lines of [main], each leaving the world
    as it was: a missing input file raises [FileNotFoundError], an empty
    one [IndexError], and a first line of [-2] makes the number of
    conformers a division by zero. *)
Theorem main_input_errors (argv : list string) (path folder_name : string)
  (w : World) :
  (lookup (files w) path = None ->
   main np_float32 str_float argv path folder_name w
   = (Raise FileNotFoundError, w))
  /\ (lookup (files w) path = Some [] ->
      main np_float32 str_float argv path folder_name w
      = (Raise IndexError, w))
  /\ (forall data line0,
         lookup (files w) path = Some data ->
         nth_error data 0 = Some line0 ->
         parse_int (strip_newlines (strip line0)) = Some (-2)%Z ->
         main np_float32 str_float argv path folder_name w
         = (Raise ZeroDivisionError, w)).
Proof.
  split; [| split].
  - intros Hfile. rewrite main_after_prelude.
    unfold prelude, bindM, readlines. rewrite Hfile. reflexivity.
  - intros Hfile. rewrite main_after_prelude.
    unfold prelude, bindM, readlines. rewrite Hfile. reflexivity.
  - intros data line0 Hfile Hline Hcount. rewrite main_after_prelude.
    unfold prelude, bindM, readlines, lift, item, int. rewrite Hfile.
    cbn [of_option]. rewrite Hline. cbn [of_option]. rewrite Hcount.
    reflexivity.
Qed.














End DriverMore.

(** ** Examples of the properties above *)

Section RunsMore.

Local Open Scope string_scope.






End RunsMore.

End Xyz2comMore.
